(** * The KNN image classifier camera demo (knn-image-classifier/demos/camera.js)

    A shallow embedding of the demo page: the module-level variables
    [training], [infoTexts], [model] and [video], the GUI set-up, the start-up
    sequence [bindPage] and the render loop [animate] together with the
    promise chain it hangs on [predictClass].  The calls the page makes on its
    collaborators (tf, the classifier, stats.js, the host) are recorded in a
    log, so that statements about "which call happens, how often and in which
    order" are statements about that log. *)

From stdpp Require Import base list strings pretty numbers.

Open Scope Z_scope.

(** ** JavaScript helpers *)
Module JS.

(** The result of [Math.max] on an array of integers: the empty spread
    [Math.max()] is [-Infinity]. *)
Inductive maxval : Type :=
| NegInfinity
| Finite (z : Z).

Definition max2 (a : maxval) (z : Z) : maxval :=
  match a with
  | NegInfinity => Finite z
  | Finite y => Finite (Z.max y z)
  end.

(** [Math.max(...xs)] *)
Definition Math_max (xs : list Z) : maxval := fold_left max2 xs NegInfinity.

(** [v > 0] *)
Definition gt0 (v : maxval) : bool :=
  match v with
  | NegInfinity => false
  | Finite z => 0 <? z
  end.

(** How a function body ends: normally, by a throw, or (an [async]
    function only) suspended for good on an [await] that never settles. *)
Inductive completion (A : Type) : Type :=
| Normal (a : A)
| Throw (msg : string)
| Suspended.
Arguments Normal {A} a.
Arguments Throw {A} msg.
Arguments Suspended {A}.

(** How a promise settles. *)
Inductive settled (A : Type) : Type :=
| Resolved (a : A)
| Rejected (msg : string).
Arguments Resolved {A} a.
Arguments Rejected {A} msg.

End JS.

(** ** The classifier *)
Module Knn.

(** Modelled from the spec: the classifier library
    (@tensorflow-models/knn-image-classifier) is not part of the demo's
    sources.  Its state, as far as the demo can observe it, is the ordered
    sequence of per-class example counts. *)
Record Classifier : Type := { classExampleCount : list Z }.

(** Modelled from the spec: [load(numClasses, k)] gives a classifier with
    [numClasses] classes and no stored example. *)
Definition load (numClasses : nat) (k : Z) : Classifier :=
  {| classExampleCount := replicate numClasses 0 |}.

(** Modelled from the spec: [train(frame, classIndex)] "increases that
    class's example count by one" and returns nothing.  The spec is silent
    on a class index outside [0, NUM_CLASSES); there the counts are left
    alone. *)
Definition addImage (m : Classifier) (classIndex : Z) : Classifier :=
  if 0 <=? classIndex
  then {| classExampleCount :=
            alter (λ c, c + 1) (Z.to_nat classIndex) (classExampleCount m) |}
  else m.

(** Modelled from the spec: [exampleCounts()], the current per-class
    counts. *)
Definition getClassExampleCount (m : Classifier) : list Z :=
  classExampleCount m.

(** Total number of stored examples. *)
Definition total (counts : list Z) : Z := foldr Z.add 0 counts.

(** Modelled from the spec: [predict] "fails only if invoked with zero
    total stored examples"; this is the condition of that failure
    branch. *)
Definition zero_example_failure (m : Classifier) : bool :=
  total (classExampleCount m) =? 0.

(** What [predictClass] resolves to. *)
Record Prediction (number : Type) : Type :=
  { classIndex : Z; confidences : list number }.
Arguments classIndex {number} _.
Arguments confidences {number} _.

End Knn.

Module Camera.
Import JS Knn.

Definition videoWidth : Z := 300.
Definition videoHeight : Z := 250.

(** Number of classes to classify *)
Definition NUM_CLASSES : nat := 3.

(** K value for KNN *)
Definition TOPK : Z := 10.

(** *** The page *)

(** A status span: [innerText] and [style.fontWeight]. *)
Record InfoText : Type := { innerText : string; fontWeight : string }.

(** The arrow functions registered on the buttons; both are assignments to
    [training]. *)
Inductive Listener : Type :=
| SetTraining (v : Z).

Record Button : Type :=
  { buttonText : string;
    mousedown : list Listener;
    mouseup : list Listener }.

(** Children appended to [document.body]: the [div] of class [i], holding
    button [i] and span [i], and the stats panel. *)
Inductive BodyChild : Type :=
| TrainingRow (i : nat)
| StatsDom.

(** The elements looked up by id: [style.display] and [textContent]. *)
Record Element : Type := { display : string; textContent : string }.

Record Video : Type :=
  { width : Z; height : Z; hasStream : bool; playing : bool }.

(** Calls on the collaborators, in the order they are made. *)
Inductive Call : Type :=
| StatsBegin
| StatsEnd
| FromPixels (image : nat)
| AddImage (image : nat) (classIndex : Z)
| GetClassExampleCount
| PredictClass (image : nat)
| Dispose (image : nat)
| RequestAnimationFrame
| GetUserMedia (w h : option Z).

(** The closure of the [.then] chain of one [predictClass] call: the
    variables [image] and [exampleCount] of the tick that made it, the array
    with the contents it had when [getClassExampleCount] returned it.  What
    is proved about the chain holds for any contents of that array. *)
Record Pending : Type := { p_image : nat; p_exampleCount : list Z }.

Record State : Type :=
  { training : Z;
    infoTexts : list InfoText;
    model : option Classifier;
    video : option Video;
    buttons : list Button;
    body : list BodyChild;
    loading : Element;
    main : Element;
    info : Element;
    nextImage : nat;          (* next tensor tf.fromPixels hands out *)
    inflight : list Pending;  (* unsettled predictClass promises *)
    frames : nat;             (* callbacks queued by requestAnimationFrame *)
    log : list Call }.

Definition set_training (v : Z) (s : State) : State :=
  {| training := v; infoTexts := infoTexts s; model := model s;
     video := video s; buttons := buttons s; body := body s;
     loading := loading s; main := main s; info := info s;
     nextImage := nextImage s; inflight := inflight s; frames := frames s;
     log := log s |}.

Definition set_infoTexts (v : list InfoText) (s : State) : State :=
  {| training := training s; infoTexts := v; model := model s;
     video := video s; buttons := buttons s; body := body s;
     loading := loading s; main := main s; info := info s;
     nextImage := nextImage s; inflight := inflight s; frames := frames s;
     log := log s |}.

Definition set_model (v : option Classifier) (s : State) : State :=
  {| training := training s; infoTexts := infoTexts s; model := v;
     video := video s; buttons := buttons s; body := body s;
     loading := loading s; main := main s; info := info s;
     nextImage := nextImage s; inflight := inflight s; frames := frames s;
     log := log s |}.

Definition set_video (v : option Video) (s : State) : State :=
  {| training := training s; infoTexts := infoTexts s; model := model s;
     video := v; buttons := buttons s; body := body s;
     loading := loading s; main := main s; info := info s;
     nextImage := nextImage s; inflight := inflight s; frames := frames s;
     log := log s |}.

Definition set_buttons (v : list Button) (s : State) : State :=
  {| training := training s; infoTexts := infoTexts s; model := model s;
     video := video s; buttons := v; body := body s;
     loading := loading s; main := main s; info := info s;
     nextImage := nextImage s; inflight := inflight s; frames := frames s;
     log := log s |}.

Definition set_body (v : list BodyChild) (s : State) : State :=
  {| training := training s; infoTexts := infoTexts s; model := model s;
     video := video s; buttons := buttons s; body := v;
     loading := loading s; main := main s; info := info s;
     nextImage := nextImage s; inflight := inflight s; frames := frames s;
     log := log s |}.

Definition set_loading (v : Element) (s : State) : State :=
  {| training := training s; infoTexts := infoTexts s; model := model s;
     video := video s; buttons := buttons s; body := body s;
     loading := v; main := main s; info := info s;
     nextImage := nextImage s; inflight := inflight s; frames := frames s;
     log := log s |}.

Definition set_main (v : Element) (s : State) : State :=
  {| training := training s; infoTexts := infoTexts s; model := model s;
     video := video s; buttons := buttons s; body := body s;
     loading := loading s; main := v; info := info s;
     nextImage := nextImage s; inflight := inflight s; frames := frames s;
     log := log s |}.

Definition set_info (v : Element) (s : State) : State :=
  {| training := training s; infoTexts := infoTexts s; model := model s;
     video := video s; buttons := buttons s; body := body s;
     loading := loading s; main := main s; info := v;
     nextImage := nextImage s; inflight := inflight s; frames := frames s;
     log := log s |}.

Definition set_nextImage (v : nat) (s : State) : State :=
  {| training := training s; infoTexts := infoTexts s; model := model s;
     video := video s; buttons := buttons s; body := body s;
     loading := loading s; main := main s; info := info s;
     nextImage := v; inflight := inflight s; frames := frames s;
     log := log s |}.

Definition set_inflight (v : list Pending) (s : State) : State :=
  {| training := training s; infoTexts := infoTexts s; model := model s;
     video := video s; buttons := buttons s; body := body s;
     loading := loading s; main := main s; info := info s;
     nextImage := nextImage s; inflight := v; frames := frames s;
     log := log s |}.

Definition set_frames (v : nat) (s : State) : State :=
  {| training := training s; infoTexts := infoTexts s; model := model s;
     video := video s; buttons := buttons s; body := body s;
     loading := loading s; main := main s; info := info s;
     nextImage := nextImage s; inflight := inflight s; frames := v;
     log := log s |}.

Definition set_log (v : list Call) (s : State) : State :=
  {| training := training s; infoTexts := infoTexts s; model := model s;
     video := video s; buttons := buttons s; body := body s;
     loading := loading s; main := main s; info := info s;
     nextImage := nextImage s; inflight := inflight s; frames := frames s;
     log := v |}.

(** *** Statements of the page: state passing with exceptions.  A throw
    keeps the mutations made before it.  For an [async] function [Throw]
    is the rejection of the promise it returned. *)
Definition Js (A : Type) : Type := State → completion A * State.

Definition ret {A} (a : A) : Js A := λ s, (Normal a, s).

Definition bind {A B} (c : Js A) (k : A → Js B) : Js B :=
  λ s, match c s with
       | (Normal a, s') => k a s'
       | (Throw msg, s') => (Throw msg, s')
       | (Suspended, s') => (Suspended, s')
       end.

Definition throw {A} (msg : string) : Js A := λ s, (Throw msg, s).

Definition suspend {A} : Js A := λ s, (Suspended, s).

(** [try { c } catch (e) { handler(e) }] *)
Definition try_catch {A} (c : Js A) (handler : string → Js A) : Js A :=
  λ s, match c s with
       | (Throw msg, s') => handler msg s'
       | r => r
       end.

(** [await p] for a promise whose fate the host decides. *)
Definition await {A} (p : option (settled A)) : Js A :=
  match p with
  | Some (Resolved a) => ret a
  | Some (Rejected msg) => throw msg
  | None => suspend
  end.

Definition get : Js State := λ s, (Normal s, s).

Definition modify (f : State → State) : Js () := λ s, (Normal (), f s).

Notation "x <~ c ;; k" := (bind c (λ x, k))
  (at level 100, c at next level, right associativity).
Notation "c ;;; k" := (bind c (λ _, k))
  (at level 100, right associativity).

Definition call (c : Call) : Js () := modify (λ s, set_log (log s ++ [c]) s).

Definition when (b : bool) (c : Js ()) : Js () := if b then c else ret ().

(** [for (let i = from; i < from + n; i++) body(i)] *)
Fixpoint for_ (from n : nat) (body : nat → Js ()) : Js () :=
  match n with
  | O => ret ()
  | S n' => body from ;;; for_ (S from) n' body
  end.

(** The initial module state: [infoTexts = []], [training = -1], [model]
    and [video] not yet assigned; the page shows the loading indicator. *)
Definition initial : State :=
  {| training := -1; infoTexts := []; model := None; video := None;
     buttons := []; body := [];
     loading := {| display := "block"; textContent := "" |};
     main := {| display := "none"; textContent := "" |};
     info := {| display := "none"; textContent := "" |};
     nextImage := 0%nat; inflight := []; frames := 0%nat; log := [] |}.

(** *** setupGui *)
Definition appendChild (c : BodyChild) : Js () :=
  modify (λ s, set_body (body s ++ [c]) s).

(** Setup training GUI. Adds a training button for each class, and sets up
    mouse events.  The row appended to the body refers to the button and
    the span it holds by their positions. *)
Definition setupGui : Js () :=
  for_ 0 NUM_CLASSES (λ i,
    appendChild (TrainingRow i) ;;;
    (* Create training button, listen for mouse events *)
    let button :=
      {| buttonText := "Train " +:+ pretty i;
         mousedown := [SetTraining (Z.of_nat i)];
         mouseup := [SetTraining (-1)] |} in
    modify (λ s, set_buttons (buttons s ++ [button]) s) ;;;
    (* Create info text *)
    let infoText := {| innerText := " No examples added"; fontWeight := "" |} in
    modify (λ s, set_infoTexts (infoTexts s ++ [infoText]) s)).

(** Sets up a frames per second panel on the top-left of the window *)
Definition setupFPS : Js () := appendChild StatsDom.

(** *** animate *)

(** [tf.fromPixels(video)]: a fresh tensor. *)
Definition fromPixels : Js nat :=
  s <~ get ;;
  match video s with
  | None => throw "fromPixels: video is undefined"
  | Some _ =>
      let image := nextImage s in
      modify (set_nextImage (S image)) ;;;
      call (FromPixels image) ;;;
      ret image
  end.

(** Reading the variable [model] to call a method on it. *)
Definition the_model : Js Classifier :=
  s <~ get ;;
  match model s with
  | None => throw "TypeError: model is undefined"
  | Some m => ret m
  end.

Definition model_addImage (image : nat) (classIndex : Z) : Js () :=
  m <~ the_model ;;
  call (AddImage image classIndex) ;;;
  modify (set_model (Some (addImage m classIndex))).

Definition model_getClassExampleCount : Js (list Z) :=
  m <~ the_model ;;
  call GetClassExampleCount ;;;
  ret (getClassExampleCount m).

(** [model.predictClass(image).then(...).then(...)]: the call is made and
    the chain, with the variables it closes over, waits for the promise. *)
Definition model_predictClass_then (image : nat) (exampleCount : list Z) : Js () :=
  _ <~ the_model ;;
  call (PredictClass image) ;;;
  modify (λ s, set_inflight
                 (inflight s ++ [{| p_image := image; p_exampleCount := exampleCount |}]) s).

Definition dispose (image : nat) : Js () := call (Dispose image).

Definition requestAnimationFrame : Js () :=
  call RequestAnimationFrame ;;;
  modify (λ s, set_frames (S (frames s)) s).

(** Animation function called on each frame, running prediction *)
Definition animate : Js () :=
  call StatsBegin ;;;
  (* Get image data from video element *)
  image <~ fromPixels ;;
  (* Train class if one of the buttons is held down *)
  s <~ get ;;
  when (negb (training s =? -1))
    (* Add current image to classifier *)
    (model_addImage image (training s)) ;;;
  (* If any examples have been added, run predict *)
  exampleCount <~ model_getClassExampleCount ;;
  (if gt0 (Math_max exampleCount)
   then model_predictClass_then image exampleCount
   else dispose image) ;;;
  call StatsEnd ;;;
  requestAnimationFrame.

(** *** Mouse events *)
Definition run_listener (l : Listener) : Js () :=
  match l with
  | SetTraining v => modify (set_training v)
  end.

Fixpoint run_listeners (ls : list Listener) : Js () :=
  match ls with
  | [] => ret ()
  | l :: ls' => run_listener l ;;; run_listeners ls'
  end.

Inductive Mouse : Type :=
| MouseDown (button : nat)
| MouseUp (button : nat).

(** Dispatching a mouse event on a button of the page; [None] when there
    is no such button. *)
Definition dispatch (e : Mouse) (s : State) : option State :=
  match e with
  | MouseDown b => btn ← buttons s !! b; Some (snd (run_listeners (mousedown btn) s))
  | MouseUp b => btn ← buttons s !! b; Some (snd (run_listeners (mouseup btn) s))
  end.

(** Events dispatched while an [async] function is suspended; those on
    buttons that do not exist are dropped. *)
Fixpoint meanwhile (es : list Mouse) : Js () :=
  match es with
  | [] => ret ()
  | e :: es' => modify (λ s, default s (dispatch e s)) ;;; meanwhile es'
  end.

(** *** The host *)
Record MediaDevices : Type :=
  { (* the method, when present, and how the promise it returns settles *)
    getUserMedia : option (option (settled ())) }.

Record Navigator : Type :=
  { mediaDevices : option MediaDevices;
    (* the two tests on navigator.userAgent *)
    isAndroid : bool;
    isiOS : bool }.

Record Host : Type :=
  { navigator : Navigator;
    (* how the promise of knn.load settles *)
    knn_load : option (settled ());
    (* whether the video element fires loadedmetadata *)
    loadedmetadata : bool;
    (* mouse events dispatched while bindPage waits for the camera *)
    during_setupCamera : list Mouse }.

Definition isMobile (n : Navigator) : bool := isAndroid n || isiOS n.

(** Loads a the camera to be used in the demo *)
Definition setupCamera (h : Host) : Js Video :=
  match mediaDevices (navigator h) ≫= getUserMedia with
  | None => throw "Browser API navigator.mediaDevices.getUserMedia not available"
  | Some stream =>
      let mobile := isMobile (navigator h) in
      call (GetUserMedia (if mobile then None else Some videoWidth)
                         (if mobile then None else Some videoHeight)) ;;;
      meanwhile (during_setupCamera h) ;;;
      await stream ;;;
      if loadedmetadata h
      then ret {| width := videoWidth; height := videoHeight;
                  hasStream := true; playing := false |}
      else suspend
  end.

(** Load the KNN model *)
Definition loadKNN (h : Host) : Js Classifier :=
  await (knn_load h) ;;;
  ret (load NUM_CLASSES TOPK).

Definition set_display (d : string) (e : Element) : Element :=
  {| display := d; textContent := textContent e |}.

Definition set_textContent (t : string) (e : Element) : Element :=
  {| display := display e; textContent := t |}.

Definition video_play (v : Video) : Video :=
  {| width := width v; height := height v; hasStream := hasStream v;
     playing := true |}.

(** Kicks off the demo by loading the knn model, finding and loading
    available camera devices, and setting off the animate function. *)
Definition bindPage (h : Host) : Js () :=
  (* Load the KNN model *)
  m <~ loadKNN h ;;
  modify (set_model (Some m)) ;;;
  modify (λ s, set_loading (set_display "none" (loading s)) s) ;;;
  modify (λ s, set_main (set_display "block" (main s)) s) ;;;
  (* Setup the GUI *)
  setupGui ;;;
  setupFPS ;;;
  (* Setup the camera *)
  try_catch
    (v <~ setupCamera h ;;
     modify (set_video (Some (video_play v))))
    (λ e,
      modify (λ s, set_info
        (set_textContent
           "this browser does not support video capture,or this device does not have a camera"
           (info s)) s) ;;;
      modify (λ s, set_info (set_display "block" (info s)) s) ;;;
      throw e) ;;;
  (* Start animation loop *)
  animate.

(** *** The [.then] chain and the event loop *)
Section Loop.

(** The numbers of a prediction are floating-point values; what the page
    does with them is multiply by 100 and interpolate the product into a
    template string.  Both are taken from the host, with [NaN] for the
    product when [res.confidences[i]] is undefined. *)
Context {number : Type}.
Variable NaN : number.
Variable times100 : number → number.
Variable toString : number → string.

(** [infoTexts[i].style.fontWeight = w] *)
Definition set_fontWeight (i : nat) (w : string) : Js () :=
  s <~ get ;;
  match infoTexts s !! i with
  | None => throw "TypeError: infoTexts[i] is undefined"
  | Some t =>
      modify (set_infoTexts
                (<[i := {| innerText := innerText t; fontWeight := w |}]>
                   (infoTexts s)))
  end.

(** [infoTexts[i].innerText = t] *)
Definition set_innerText (i : nat) (t : string) : Js () :=
  s <~ get ;;
  match infoTexts s !! i with
  | None => throw "TypeError: infoTexts[i] is undefined"
  | Some e =>
      modify (set_infoTexts
                (<[i := {| innerText := t; fontWeight := fontWeight e |}]>
                   (infoTexts s)))
  end.

(** [res.confidences[i] * 100] *)
Definition conf (res : Prediction number) (i : nat) : number :=
  match confidences res !! i with
  | Some c => times100 c
  | None => NaN
  end.

(** The template string of the status text. *)
Definition status (count : Z) (percent : number) : string :=
  " " +:+ pretty count +:+ " examples - " +:+ toString percent +:+ "%".

(** What the callback makes of the span of class [i]. *)
Definition shown (exampleCount : list Z) (res : Prediction number)
    (i : nat) (t : InfoText) : InfoText :=
  {| innerText :=
       match exampleCount !! i with
       | Some c =>
           if 0 <? c
           then status c (conf res i)
           else innerText t
       | None => innerText t
       end;
     fontWeight :=
       if classIndex res =? Z.of_nat i then "bold" else "normal" |}.

(** The body of the loop of the first [.then] callback, for class [i]. *)
Definition show_class (exampleCount : list Z) (res : Prediction number)
    (i : nat) : Js () :=
  (* Make the predicted class bold *)
  (if classIndex res =? Z.of_nat i
   then set_fontWeight i "bold"
   else set_fontWeight i "normal") ;;;
  (* Update info text; [undefined > 0] is false *)
  match exampleCount !! i with
  | Some c => when (0 <? c) (set_innerText i (status c (conf res i)))
  | None => ret ()
  end.

(** The first [.then] callback. *)
Definition show (exampleCount : list Z) (res : Prediction number) : Js () :=
  for_ 0 NUM_CLASSES (show_class exampleCount res).

(** What the chain [.then(show).then(() => image.dispose())] does once
    the promise of [predictClass] settles: on rejection neither callback
    runs, and a throw of the first skips the second. *)
Definition settle (p : Pending) (o : settled (Prediction number)) : Js () :=
  match o with
  | Rejected msg => throw msg
  | Resolved res =>
      show (p_exampleCount p) res ;;;
      (* Dispose image when done *)
      dispose (p_image p)
  end.

(** What the event loop runs next. *)
Inductive Event : Type :=
| Click (e : Mouse)
| AnimationFrame
| Settle (k : nat) (o : settled (Prediction number)).

(** One turn of the event loop; [None] when the event cannot happen in
    this state.  An exception escaping a callback is reported by the host
    and the page goes on. *)
Definition step (e : Event) (s : State) : option State :=
  match e with
  | Click m => dispatch m s
  | AnimationFrame =>
      match frames s with
      | O => None
      | S n => Some (snd (animate (set_frames n s)))
      end
  | Settle k o =>
      p ← inflight s !! k;
      Some (snd (settle p o (set_inflight (delete k (inflight s)) s)))
  end.

(** A run of the event loop. *)
Fixpoint run (es : list Event) (s : State) : option State :=
  match es with
  | [] => Some s
  | e :: es' => s' ← step e s; run es' s'
  end.

(** The states the page goes through on a host. *)
Inductive reachable (h : Host) : State → Prop :=
| reach_bindPage : reachable h (snd (bindPage h initial))
| reach_step s e s' : reachable h s → step e s = Some s' → reachable h s'.

End Loop.

(** The calls a piece of code added to the log. *)
Definition calls_since (s s' : State) : list Call :=
  drop (length (log s)) (log s').

Definition is_dispose (image : nat) (c : Call) : bool :=
  match c with
  | Dispose j => bool_decide (j = image)
  | _ => false
  end.

Definition is_train (c : Call) : bool :=
  match c with
  | AddImage _ _ => true
  | _ => false
  end.

(** The page is running: [bindPage] got as far as the animation loop. *)
Definition running (s : State) : Prop :=
  is_Some (model s) ∧ is_Some (video s).

(** ** Closed forms, invariants and a concrete page: the definitions the
    facts below are stated with. *)

(** The classifier after line 137 of a tick that started in [s]. *)
Definition trained (s : State) (m : Classifier) : Classifier :=
  if training s =? -1 then m else addImage m (training s).

Definition tick_calls (s : State) (m : Classifier) : list Call :=
  [StatsBegin; FromPixels (nextImage s)]
  ++ (if training s =? -1 then [] else [AddImage (nextImage s) (training s)])
  ++ [GetClassExampleCount]
  ++ [if gt0 (Math_max (classExampleCount (trained s m)))
      then PredictClass (nextImage s) else Dispose (nextImage s)]
  ++ [StatsEnd; RequestAnimationFrame].

Definition after_tick (s : State) (m : Classifier) : State :=
  {| training := training s; infoTexts := infoTexts s;
     model := Some (trained s m); video := video s; buttons := buttons s;
     body := body s; loading := loading s; main := main s; info := info s;
     nextImage := S (nextImage s);
     inflight :=
       if gt0 (Math_max (classExampleCount (trained s m)))
       then inflight s ++ [{| p_image := nextImage s;
                              p_exampleCount := classExampleCount (trained s m) |}]
       else inflight s;
     frames := S (frames s);
     log := log s ++ tick_calls s m |}.

(** The armed class is the sentinel or a class index. *)
Definition valid_training (t : Z) : Prop :=
  t = -1 ∨ 0 ≤ t < Z.of_nat NUM_CLASSES.

(** The buttons are those of [setupGui]: button [i] arms class [i] when
    pressed and disarms when released. *)
Definition buttons_ok (bs : list Button) : Prop :=
  ∀ i b, bs !! i = Some b →
    (i < NUM_CLASSES)%nat
    ∧ mousedown b = [SetTraining (Z.of_nat i)]
    ∧ mouseup b = [SetTraining (-1)].

Definition armed_by (e : Mouse) : Z :=
  match e with
  | MouseDown i => Z.of_nat i
  | MouseUp _ => -1
  end.

(** The page once the model is loaded and the GUI is set up, as
    [bindPage] leaves it on reaching the camera set-up. *)
Definition booted : State :=
  Eval vm_compute in
    snd ((modify (set_model (Some (load NUM_CLASSES TOPK))) ;;;
          modify (λ s, set_loading (set_display "none" (loading s)) s) ;;;
          modify (λ s, set_main (set_display "block" (main s)) s) ;;;
          setupGui ;;;
          setupFPS) initial).

Definition fallback : string :=
  "this browser does not support video capture,or this device does not have a camera".

Definition unsupported : string :=
  "Browser API navigator.mediaDevices.getUserMedia not available".

(** The [catch] block of [bindPage]. *)
Definition caught (s : State) : State :=
  set_info {| display := "block"; textContent := fallback |} s.

(** What [getUserMedia] is asked for. *)
Definition asked (h : Host) : Call :=
  GetUserMedia (if isMobile (navigator h) then None else Some videoWidth)
               (if isMobile (navigator h) then None else Some videoHeight).

Definition the_video : Video :=
  {| width := videoWidth; height := videoHeight; hasStream := true;
     playing := true |}.

(** How often [image] was released, and how many chains wait to release
    it. *)
Definition releases (image : nat) (l : list Call) : nat :=
  length (List.filter (is_dispose image) l).

Definition awaiting (image : nat) (ps : list Pending) : nat :=
  length (List.filter (λ p, bool_decide (p_image p = image)) ps).

Record Inv (s : State) : Prop :=
  { inv_training : valid_training (training s);
    inv_buttons : buttons_ok (buttons s);
    inv_texts : is_Some (model s) → length (infoTexts s) = NUM_CLASSES;
    inv_counts : ∀ m, model s = Some m →
      length (classExampleCount m) = NUM_CLASSES
      ∧ Forall (λ c, 0 ≤ c) (classExampleCount m);
    inv_trains : ∀ image k, AddImage image k ∈ log s →
      0 ≤ k < Z.of_nat NUM_CLASSES;
    inv_running : frames s ≠ 0%nat ∨ inflight s ≠ [] → running s;
    inv_once : ∀ image,
      (releases image (log s) + awaiting image (inflight s) ≤ 1)%nat;
    inv_fresh : ∀ image, (nextImage s ≤ image)%nat →
      releases image (log s) = 0%nat ∧ awaiting image (inflight s) = 0%nat }.

(** A desktop browser on which everything succeeds; the user presses
    button 0 while the camera is being set up and holds it. *)
Definition desktop : Host :=
  {| navigator :=
       {| mediaDevices := Some {| getUserMedia := Some (Some (Resolved ())) |};
          isAndroid := false; isiOS := false |};
     knn_load := Some (Resolved ());
     loadedmetadata := true;
     during_setupCamera := [MouseDown 0%nat] |}.

(** A browser without [navigator.mediaDevices]. *)
Definition no_camera : Host :=
  {| navigator := {| mediaDevices := None; isAndroid := false; isiOS := false |};
     knn_load := Some (Resolved ());
     loadedmetadata := false;
     during_setupCamera := [] |}.

(** The page of [desktop] when [bindPage] calls [animate]. *)
Definition armed_page : State :=
  set_video (Some the_video) (set_training 0 (set_log [asked desktop] booted)).

(** The page of [desktop] after [bindPage], that is after the first tick:
    one example of class 0, the prediction for image 0 in flight. *)
Definition first_tick : State := snd (bindPage desktop initial).

(** Integers stand in for the numbers of a prediction.  The prediction of
    the first tick is rejected. *)
Definition after_rejection : option State :=
  step 0 (Z.mul 100) pretty (Settle 0%nat (Rejected "prediction failed")) first_tick.

(** The page after that rejection. *)
Definition leaked : State := Eval vm_compute in default initial after_rejection.

Definition class0 : Prediction Z := {| classIndex := 0; confidences := [1; 0; 0] |}.

(** The scenario of the specification: control 0 is held for five ticks
    and released, then the prediction of the fifth tick resolves to
    class 0. *)
Definition five_examples : option State :=
  run 0 (Z.mul 100) pretty
    [AnimationFrame; AnimationFrame; AnimationFrame; AnimationFrame;
     Click (MouseUp 0%nat); Settle 4%nat (Resolved class0)]
    first_tick.

(** ** The tests on the user agent

    [/Android/i.test(s)] and [/iPhone|iPad|iPod/i.test(s)]: a search for an
    occurrence of one of the literal alternatives, letters compared without
    regard to case.  The alternatives are ASCII, for which ignoring case is
    mapping [A]..[Z] to [a]..[z]; no other character is equal to a letter
    under the [i] flag. *)
Definition lower (c : Ascii.ascii) : Ascii.ascii :=
  let n := Ascii.N_of_ascii c in
  if ((65 <=? n) && (n <=? 90))%N then Ascii.ascii_of_N (n + 32) else c.

Fixpoint fold_case (s : string) : string :=
  match s with
  | EmptyString => EmptyString
  | String c s' => String (lower c) (fold_case s')
  end.

(** The literal [p] matches at the start of [s]. *)
Fixpoint occurs_at (p s : string) : bool :=
  match p, s with
  | EmptyString, _ => true
  | String a p', String b s' => Ascii.eqb (lower a) (lower b) && occurs_at p' s'
  | String _ _, EmptyString => false
  end.

(** The literal [p] matches somewhere in [s]. *)
Fixpoint occurs (p s : string) : bool :=
  occurs_at p s ||
  match s with
  | EmptyString => false
  | String _ s' => occurs p s'
  end.

(** [/a1|a2|.../i.test(s)] *)
Definition test_i (alternatives : list string) (s : string) : bool :=
  existsb (λ p, occurs p s) alternatives.

Definition isAndroid_of (userAgent : string) : bool :=
  test_i ["Android"] userAgent.

Definition isiOS_of (userAgent : string) : bool :=
  test_i ["iPhone"; "iPad"; "iPod"] userAgent.

(** The navigator of a browser with this user agent. *)
Definition navigator_of (userAgent : string) (md : option MediaDevices) : Navigator :=
  {| mediaDevices := md;
     isAndroid := isAndroid_of userAgent;
     isiOS := isiOS_of userAgent |}.

(** ** Counting calls and events *)
Definition is_getUserMedia (c : Call) : bool :=
  match c with
  | GetUserMedia _ _ => true
  | _ => false
  end.

Definition is_capture (c : Call) : bool :=
  match c with
  | FromPixels _ => true
  | _ => false
  end.

Definition is_release (c : Call) : bool :=
  match c with
  | Dispose _ => true
  | _ => false
  end.

Definition captured (l : list Call) : nat := length (List.filter is_capture l).

Definition released (l : list Call) : nat := length (List.filter is_release l).

(** The class left armed by a sequence of mouse events. *)
Definition last_armed (ms : list Mouse) (t : Z) : Z :=
  fold_left (λ _ m, armed_by m) ms t.

(** An event other than the rejection of a prediction. *)
Definition no_rejection {number : Type} (e : @Event number) : bool :=
  match e with
  | Settle _ (Rejected _) => false
  | _ => true
  end.

(** ** More concrete hosts and pages *)

(** A browser whose user denies the camera. *)
Definition denied : Host :=
  {| navigator :=
       {| mediaDevices :=
            Some {| getUserMedia := Some (Some (Rejected "NotAllowedError")) |};
          isAndroid := true; isiOS := false |};
     knn_load := Some (Resolved ());
     loadedmetadata := true;
     during_setupCamera := [] |}.

(** A browser whose [getUserMedia] never answers. *)
Definition stalled : Host :=
  {| navigator :=
       {| mediaDevices := Some {| getUserMedia := Some None |};
          isAndroid := false; isiOS := false |};
     knn_load := Some (Resolved ());
     loadedmetadata := true;
     during_setupCamera := [MouseDown 1%nat] |}.

(** A browser on which the model cannot be fetched. *)
Definition offline : Host :=
  {| navigator :=
       {| mediaDevices := Some {| getUserMedia := Some (Some (Resolved ())) |};
          isAndroid := false; isiOS := false |};
     knn_load := Some (Rejected "Failed to fetch");
     loadedmetadata := true;
     during_setupCamera := [] |}.

(** On [desktop]: a second tick, then the prediction of the first tick
    resolves. *)
Definition second_tick : State :=
  Eval vm_compute in
    default initial
      (run 0 (Z.mul 100) pretty
         [AnimationFrame; Settle 0%nat (Resolved class0)] first_tick).

(** On [desktop]: button 0 is released and button 2 pressed. *)
Definition rearmed : State :=
  Eval vm_compute in
    default initial
      (run 0 (Z.mul 100) pretty
         (Click <$> [MouseUp 0%nat; MouseDown 2%nat]) first_tick).

(** A prediction for a class the page does not have. *)
Definition class3 : Prediction Z := {| classIndex := 3; confidences := [0; 0; 0] |}.


(** ** A run with predictions that settle out of order *)




(** On [desktop], after the first tick: button 2 is pressed. *)
Definition pressed2 : State := set_training 2 first_tick.

(** ** Facts about the helpers *)

Lemma gt0_fold_max xs a :
  gt0 (fold_left max2 xs a) = true ↔ gt0 a = true ∨ ∃ c, c ∈ xs ∧ 0 < c.
Proof.
  revert a. induction xs as [|x xs IH]; intros a; simpl.
  - split; [auto | intros [H | (c & Hc & _)]; [done | inversion Hc]].
  - rewrite IH. split.
    + intros [H | (c & Hc & Hpos)].
      * destruct a as [|y]; simpl in H.
        -- right. exists x. split; [left | lia].
        -- apply Z.ltb_lt in H.
           destruct (Z.max_spec y x) as [[_ E] | [_ E]]; rewrite E in H.
           ++ right. exists x. split; [left | lia].
           ++ left. simpl. apply Z.ltb_lt. lia.
      * right. exists c. split; [by right | done].
    + intros [H | (c & Hc & Hpos)].
      * left. destruct a as [|y]; simpl in *; [done |].
        apply Z.ltb_lt. apply Z.ltb_lt in H. lia.
      * apply elem_of_cons in Hc as [-> | Hc].
        -- left. destruct a as [|y]; simpl; apply Z.ltb_lt; lia.
        -- right. eauto.
Qed.

(** [Math.max(...xs) > 0] exactly when some entry is positive. *)
Lemma Math_max_gt0 xs :
  gt0 (Math_max xs) = true ↔ ∃ c, c ∈ xs ∧ 0 < c.
Proof.
  unfold Math_max. rewrite gt0_fold_max. simpl.
  split; [intros [H | H]; [discriminate | exact H] | auto].
Qed.

Lemma total_nonneg xs : Forall (λ c, 0 ≤ c) xs → 0 ≤ total xs.
Proof. induction 1; simpl; lia. Qed.

Lemma total_pos xs c :
  Forall (λ c, 0 ≤ c) xs → c ∈ xs → 0 < c → 0 < total xs.
Proof.
  induction 1 as [|x xs Hx Hxs IH]; intros Hin Hpos; [inversion Hin |].
  apply elem_of_cons in Hin as [-> | Hin]; simpl.
  - pose proof (total_nonneg xs Hxs). lia.
  - specialize (IH Hin Hpos). lia.
Qed.

Lemma addImage_nonneg m k :
  Forall (λ c, 0 ≤ c) (classExampleCount m) →
  Forall (λ c, 0 ≤ c) (classExampleCount (addImage m k)).
Proof.
  intros H. unfold addImage. destruct (0 <=? k); [simpl | done].
  apply Forall_alter; [done |]. intros c _ Hc. lia.
Qed.

Lemma addImage_length m k :
  length (classExampleCount (addImage m k)) = length (classExampleCount m).
Proof.
  unfold addImage. destruct (0 <=? k); [simpl | done]. apply length_alter.
Qed.

(** ** One tick, in closed form *)

Ltac js_unfold :=
  unfold animate, fromPixels, model_addImage, model_getClassExampleCount,
    model_predictClass_then, dispose, requestAnimationFrame, the_model,
    when, call, modify, get, bind, ret, throw.

Lemma animate_running s m v :
  model s = Some m → video s = Some v →
  animate s = (Normal (), after_tick s m).
Proof.
  destruct s as [tr it mo vi bu bo lo ma inf ni fl fr lg]; simpl.
  intros -> ->.
  unfold after_tick, tick_calls, trained; simpl.
  js_unfold; simpl.
  destruct (tr =? -1); simpl;
    destruct (gt0 _); simpl; rewrite <- ?app_assoc; reflexivity.
Qed.

Lemma calls_since_app s l : drop (length (log s)) (log s ++ l) = l.
Proof. by rewrite drop_app_length. Qed.

Lemma calls_since_tick s m :
  calls_since s (after_tick s m) = tick_calls s m.
Proof. unfold calls_since. simpl. apply calls_since_app. Qed.

Lemma animate_no_video s :
  video s = None →
  animate s = (Throw "fromPixels: video is undefined",
               set_log (log s ++ [StatsBegin]) s).
Proof.
  destruct s as [tr it mo vi bu bo lo ma inf ni fl fr lg]; simpl.
  intros ->. js_unfold; reflexivity.
Qed.

Lemma set_infoTexts_id s : set_infoTexts (infoTexts s) s = s.
Proof. by destruct s. Qed.

(** ** The first [.then] callback, in closed form *)
Section LoopFacts.
Context {number : Type}.
Variable NaN : number.
Variable times100 : number → number.
Variable toString : number → string.

Lemma show_class_ok ec res i s t :
  infoTexts s !! i = Some t →
  show_class NaN times100 toString ec res i s
  = (Normal (), set_infoTexts (<[i := shown NaN times100 toString ec res i t]> (infoTexts s)) s).
Proof.
  intros Ht.
  assert (Hlt : (i < length (infoTexts s))%nat)
    by (apply lookup_lt_is_Some; eauto).
  unfold show_class, shown, set_fontWeight, set_innerText, when,
    modify, get, bind, ret.
  destruct (classIndex res =? Z.of_nat i); rewrite Ht; simpl;
    (destruct (ec !! i) as [c|]; simpl; [destruct (0 <? c); simpl |]);
    rewrite ?list_lookup_insert_eq, ?list_insert_insert_eq by done;
    simpl; by destruct t.
Qed.

Lemma show_class_throw ec res i s :
  infoTexts s !! i = None →
  show_class NaN times100 toString ec res i s
  = (Throw "TypeError: infoTexts[i] is undefined", s).
Proof.
  intros Ht.
  unfold show_class, set_fontWeight, throw, get, bind.
  destruct (classIndex res =? Z.of_nat i); by rewrite Ht.
Qed.

(** The loop touches nothing but the spans. *)
Lemma show_loop_frame ec res n :
  ∀ from s, ∃ r l',
    for_ from n (show_class NaN times100 toString ec res) s
    = (r, set_infoTexts l' s).
Proof.
  induction n as [|n IH]; intros from s; simpl.
  - exists (Normal ()), (infoTexts s). by rewrite set_infoTexts_id.
  - unfold bind at 1.
    destruct (infoTexts s !! from) as [t|] eqn:Ht.
    + rewrite (show_class_ok _ _ _ _ _ Ht).
      destruct (IH (S from)
                  (set_infoTexts (<[from := shown NaN times100 toString ec res from t]> (infoTexts s)) s))
        as (r & l' & ->).
      by exists r, l'.
    + rewrite (show_class_throw _ _ _ _ Ht).
      eexists _, (infoTexts s). by rewrite set_infoTexts_id.
Qed.

(** With a span for every index it visits, the loop completes and has
    rewritten exactly the spans it visited. *)
Lemma show_loop_ok ec res n :
  ∀ from s, (from + n ≤ length (infoTexts s))%nat →
    ∃ l',
      for_ from n (show_class NaN times100 toString ec res) s
      = (Normal (), set_infoTexts l' s)
      ∧ length l' = length (infoTexts s)
      ∧ ∀ j t, infoTexts s !! j = Some t →
          l' !! j = Some (if decide (from ≤ j < from + n)%nat
                          then shown NaN times100 toString ec res j t else t).
Proof.
  induction n as [|n IH]; intros from s Hlen; simpl.
  - exists (infoTexts s). rewrite set_infoTexts_id.
    split; [done |]. split; [done |]. intros j t Hj.
    case_decide; [lia | done].
  - unfold bind at 1.
    destruct (lookup_lt_is_Some_2 (infoTexts s) from) as [t0 Ht0]; [lia |].
    rewrite (show_class_ok _ _ _ _ _ Ht0).
    destruct (IH (S from)
                (set_infoTexts (<[from := shown NaN times100 toString ec res from t0]> (infoTexts s)) s))
      as (l' & -> & Hl' & Hpt).
    { simpl. rewrite length_insert. lia. }
    exists l'. split; [done |]. simpl in Hl', Hpt.
    rewrite length_insert in Hl'. split; [done |].
    intros j t Hj. destruct (decide (j = from)) as [-> | Hne].
    + assert (t0 = t) as -> by congruence.
      rewrite (Hpt from (shown NaN times100 toString ec res from t)).
      * repeat case_decide; (done || lia).
      * apply list_lookup_insert_eq. apply lookup_lt_is_Some; eauto.
    + rewrite (Hpt j t).
      * repeat case_decide; (done || lia).
      * by rewrite list_lookup_insert_ne.
Qed.

Lemma show_ok ec res s :
  length (infoTexts s) = NUM_CLASSES →
  ∃ l',
    show NaN times100 toString ec res s = (Normal (), set_infoTexts l' s)
    ∧ length l' = NUM_CLASSES
    ∧ ∀ j t, infoTexts s !! j = Some t → l' !! j = Some (shown NaN times100 toString ec res j t).
Proof.
  intros Hlen.
  destruct (show_loop_ok ec res NUM_CLASSES 0%nat s) as (l' & E & Hl' & Hpt);
    [lia |].
  exists l'. split; [exact E |]. split; [lia |].
  intros j t Hj. rewrite (Hpt j t Hj).
  assert ((j < NUM_CLASSES)%nat) by (rewrite <- Hlen; apply lookup_lt_is_Some; eauto).
  case_decide; [done | lia].
Qed.

(** The chain touches the spans and appends at most one call, the
    release of its image. *)
Lemma settle_frame p o s :
  ∃ r l' cs,
    settle NaN times100 toString p o s
    = (r, set_log (log s ++ cs) (set_infoTexts l' s))
    ∧ (cs = [] ∨ (cs = [Dispose (p_image p)] ∧ r = Normal ())).
Proof.
  destruct o as [res | msg]; simpl.
  - unfold show, bind.
    destruct (show_loop_frame (p_exampleCount p) res NUM_CLASSES 0%nat s)
      as (r & l' & ->).
    destruct r as [[] | msg |].
    + exists (Normal ()), l', [Dispose (p_image p)]. split; [done | by right].
    + exists (Throw msg), l', []. rewrite app_nil_r. split; [| by left].
      by destruct s.
    + exists Suspended, l', []. rewrite app_nil_r. split; [| by left].
      by destruct s.
  - exists (Throw msg), (infoTexts s), []. rewrite app_nil_r.
    split; [| by left]. by destruct s.
Qed.

(** With a span per class the chain of a resolved prediction completes:
    it has rewritten every span and released the image. *)
Lemma settle_resolved p res s :
  length (infoTexts s) = NUM_CLASSES →
  ∃ l',
    settle NaN times100 toString p (Resolved res) s
    = (Normal (), set_log (log s ++ [Dispose (p_image p)]) (set_infoTexts l' s))
    ∧ length l' = NUM_CLASSES
    ∧ ∀ j t, infoTexts s !! j = Some t →
        l' !! j = Some (shown NaN times100 toString (p_exampleCount p) res j t).
Proof.
  intros Hlen. simpl. unfold bind.
  destruct (show_ok (p_exampleCount p) res s Hlen) as (l' & -> & Hl' & Hpt).
  by exists l'.
Qed.

End LoopFacts.

(** ** Mouse events *)

Lemma dispatch_spec e s s' :
  buttons_ok (buttons s) → dispatch e s = Some s' →
  s' = set_training (armed_by e) s ∧ valid_training (armed_by e).
Proof.
  intros Hb He. destruct e as [i | i]; simpl in He;
    destruct (buttons s !! i) as [b|] eqn:Hi; simpl in He; try discriminate;
    destruct (Hb i b Hi) as (Hlt & Hd & Hu); injection He as <-.
  - rewrite Hd. split; [reflexivity |]. right. simpl. lia.
  - rewrite Hu. split; [reflexivity |]. by left.
Qed.

Lemma meanwhile_spec es : ∀ s,
  buttons_ok (buttons s) → valid_training (training s) →
  ∃ t, meanwhile es s = (Normal (), set_training t s) ∧ valid_training t.
Proof.
  induction es as [|e es IH]; intros s Hb Ht; simpl.
  - exists (training s). split; [by destruct s | done].
  - unfold bind at 1, modify at 1.
    destruct (dispatch e s) as [s'|] eqn:He; simpl.
    + destruct (dispatch_spec e s s' Hb He) as [-> Hv].
      destruct (IH (set_training (armed_by e) s) Hb Hv) as (t & -> & Hvt).
      by exists t.
    + apply IH; done.
Qed.

(** ** Start-up *)

Lemma bindPage_not_loaded h :
  knn_load h ≠ Some (Resolved ()) →
  snd (bindPage h initial) = initial ∧ fst (bindPage h initial) ≠ Normal ().
Proof.
  intros H. unfold bindPage, loadKNN, bind at 1 2.
  by destruct (knn_load h) as [[[]|msg]|].
Qed.

Lemma bindPage_unsupported h :
  knn_load h = Some (Resolved ()) →
  mediaDevices (navigator h) ≫= getUserMedia = None →
  bindPage h initial = (Throw unsupported, caught booted).
Proof.
  intros Hload Hnone. unfold bindPage, loadKNN, setupCamera.
  rewrite Hload, Hnone. reflexivity.
Qed.

Lemma booted_buttons : buttons_ok (buttons booted).
Proof.
  intros [|[|[|i]]] b Hb; simpl in Hb; try discriminate;
    injection Hb as <-; simpl; repeat split; unfold NUM_CLASSES; lia.
Qed.

(** With a [getUserMedia] to call, the page asks for the stream; the
    clicks made while it waits leave some armed class [t]. *)
Lemma bindPage_supported h stream :
  knn_load h = Some (Resolved ()) →
  mediaDevices (navigator h) ≫= getUserMedia = Some stream →
  ∃ t, valid_training t ∧
    let waiting := set_training t (set_log [asked h] booted) in
    bindPage h initial =
      match stream with
      | None => (Suspended, waiting)
      | Some (Rejected msg) => (Throw msg, caught waiting)
      | Some (Resolved _) =>
          if loadedmetadata h
          then animate (set_video (Some the_video) waiting)
          else (Suspended, waiting)
      end.
Proof.
  intros Hload Hsome.
  destruct (meanwhile_spec (during_setupCamera h) (set_log [asked h] booted))
    as (t & Hm & Ht); [exact booted_buttons | by left |].
  exists t. split; [done |].
  unfold bindPage, loadKNN, setupCamera.
  rewrite Hload, Hsome.
  cbn [await]. unfold try_catch.
  unfold bind at 1 2 3 4 5 6 7 8 9 10. cbn [ret modify initial].
  match goal with |- context [setupGui ?x] => 
    let y := eval vm_compute in (setupGui x) in change (setupGui x) with y end.
  cbv iota beta.
  match goal with |- context [setupFPS ?x] => 
    let y := eval vm_compute in (setupFPS x) in change (setupFPS x) with y end.
  cbv iota beta.
  unfold call at 1, modify at 1. cbv iota beta.
  unfold bind at 1.
  change (set_log _ _) with (set_log [asked h] booted) at 1.
  rewrite Hm. cbv iota beta.
  destruct stream as [[[]|msg]|]; cbn [await].
  - unfold bind at 1. cbn [ret]. destruct (loadedmetadata h).
    + cbn [ret modify]. reflexivity.
    + reflexivity.
  - reflexivity.
  - reflexivity.
Qed.

(** ** Invariants of the running page *)

Lemma releases_app image l k :
  releases image (l ++ k) = (releases image l + releases image k)%nat.
Proof. unfold releases. by rewrite List.filter_app, length_app. Qed.

Lemma awaiting_app image l k :
  awaiting image (l ++ k) = (awaiting image l + awaiting image k)%nat.
Proof. unfold awaiting. by rewrite List.filter_app, length_app. Qed.

Lemma awaiting_delete image ps : ∀ k p,
  ps !! k = Some p →
  awaiting image ps
  = (awaiting image (delete k ps)
     + if bool_decide (p_image p = image) then 1 else 0)%nat.
Proof.
  induction ps as [|q ps IH]; intros [|k] p Hk; simpl in Hk; try discriminate.
  - injection Hk as ->. unfold awaiting; simpl.
    destruct (bool_decide (p_image p = image)); simpl; lia.
  - specialize (IH k p Hk). unfold awaiting in *; simpl.
    destruct (bool_decide (p_image q = image)); simpl; lia.
Qed.

Lemma releases_tick image s m :
  releases image (tick_calls s m)
  = if gt0 (Math_max (classExampleCount (trained s m)))
    then 0%nat
    else if bool_decide (nextImage s = image) then 1%nat else 0%nat.
Proof.
  unfold tick_calls, releases.
  destruct (training s =? -1); destruct (gt0 _); simpl; try done;
    by destruct (bool_decide (nextImage s = image)).
Qed.

Lemma Inv_initial : Inv initial.
Proof.
  split; simpl; try done.
  - by left.
  - intros image k Hin. inversion Hin.
  - intros [H | H]; done.
  - intros image. unfold awaiting. simpl. lia.
Qed.

Lemma Inv_booted : Inv booted.
Proof.
  split; simpl; try done.
  - by left.
  - apply booted_buttons.
  - intros m [= <-]. simpl. split; [done |]. repeat constructor; lia.
  - intros image k Hin. inversion Hin.
  - intros [H | H]; done.
  - intros image. unfold awaiting. simpl. lia.
Qed.

Lemma Inv_set_training t s : valid_training t → Inv s → Inv (set_training t s).
Proof. intros Ht []. by split. Qed.

Lemma Inv_caught s : Inv s → Inv (caught s).
Proof. intros []. by split. Qed.

Lemma Inv_asked h : Inv (set_log [asked h] booted).
Proof.
  destruct Inv_booted. split; try done.
  simpl. intros image k Hin. apply list_elem_of_singleton in Hin. discriminate.
Qed.

Lemma Inv_set_video v s : Inv s → Inv (set_video (Some v) s).
Proof.
  intros []. split; try done.
  simpl. intros H. destruct (inv_running0 H) as [Hm _].
  split; [done | by eexists].
Qed.

Lemma Inv_set_frames n s : frames s = S n → Inv s → Inv (set_frames n s).
Proof.
  intros Hn []. split; try done.
  simpl. intros H. apply inv_running0. left. lia.
Qed.

Lemma trained_valid s m :
  valid_training (training s) →
  length (classExampleCount m) = NUM_CLASSES →
  Forall (λ c, 0 ≤ c) (classExampleCount m) →
  length (classExampleCount (trained s m)) = NUM_CLASSES
  ∧ Forall (λ c, 0 ≤ c) (classExampleCount (trained s m)).
Proof.
  intros Ht Hlen Hpos. unfold trained. destruct (training s =? -1).
  - done.
  - split; [by rewrite addImage_length | by apply addImage_nonneg].
Qed.

Lemma Inv_after_tick s m v :
  model s = Some m → video s = Some v → Inv s → Inv (after_tick s m).
Proof.
  intros Hm Hv []. destruct (inv_counts0 m Hm) as [Hlen Hpos].
  split; simpl; try done.
  - intros _. apply inv_texts0. by eexists.
  - intros m' [= <-]. by apply trained_valid.
  - intros image k Hin. apply elem_of_app in Hin as [Hin | Hin]; [eauto |].
    unfold tick_calls in Hin.
    destruct (training s =? -1) eqn:Htr; simpl in Hin;
      repeat (apply elem_of_cons in Hin as [Hin | Hin];
              [try discriminate |]); try by inversion Hin.
    + destruct (gt0 _); discriminate.
    + injection Hin as Hi Hk. subst k. apply Z.eqb_neq in Htr.
      destruct inv_training0; [done | lia].
    + destruct (gt0 _); discriminate.
  - intros image. rewrite releases_app, releases_tick.
    specialize (inv_once0 image).
    destruct (gt0 _).
    + rewrite awaiting_app. unfold awaiting at 2. simpl.
      destruct (bool_decide_reflect (nextImage s = image)) as [<- | Hne];
        simpl; [| lia].
      destruct (inv_fresh0 (nextImage s)); lia.
    + destruct (bool_decide_reflect (nextImage s = image)) as [<- | Hne];
        [| lia].
      destruct (inv_fresh0 (nextImage s)); lia.
  - intros image Hle. rewrite releases_app, releases_tick.
    destruct (inv_fresh0 image) as [-> Haw]; [lia |].
    destruct (gt0 _).
    + rewrite awaiting_app, Haw. unfold awaiting. simpl.
      rewrite bool_decide_eq_false_2 by lia. done.
    + rewrite bool_decide_eq_false_2 by lia. done.
Qed.

Lemma Inv_bindPage h : Inv (snd (bindPage h initial)).
Proof.
  assert (knn_load h = Some (Resolved ()) ∨ knn_load h ≠ Some (Resolved ()))
    as [Hload | Hload]
    by (destruct (knn_load h) as [[[] | msg] |]; (by left) || (by right)).
  - destruct (mediaDevices (navigator h) ≫= getUserMedia) as [stream|] eqn:Hgum.
    + destruct (bindPage_supported h stream Hload Hgum) as (t & Ht & ->).
      assert (Hw : Inv (set_training t (set_log [asked h] booted)))
        by (apply Inv_set_training; [done | apply Inv_asked]).
      destruct stream as [[[] | msg] |]; simpl.
      * destruct (loadedmetadata h); [| done].
        erewrite animate_running by reflexivity.
        eapply Inv_after_tick; [reflexivity | reflexivity |].
        by apply Inv_set_video.
      * by apply Inv_caught.
      * done.
    + rewrite (bindPage_unsupported h Hload Hgum). simpl.
      apply Inv_caught, Inv_booted.
  - destruct (bindPage_not_loaded h Hload) as [-> _]. apply Inv_initial.
Qed.

Section Reachable.
Context {number : Type}.
Variable NaN : number.
Variable times100 : number → number.
Variable toString : number → string.

Lemma Inv_settle s k p o :
  inflight s !! k = Some p → Inv s →
  Inv (snd (settle NaN times100 toString p o
              (set_inflight (delete k (inflight s)) s))).
Proof.
  intros Hk HI.
  assert (Hrun : running s).
  { apply (inv_running s HI). right. intros E. by rewrite E in Hk. }
  assert (Hlen : length (infoTexts s) = NUM_CLASSES)
    by (apply (inv_texts s HI), Hrun).
  pose proof (awaiting_delete) as Hdel.
  destruct HI.
  destruct o as [res | msg].
  - destruct (settle_resolved NaN times100 toString p res
                (set_inflight (delete k (inflight s)) s) Hlen)
      as (l' & -> & Hl' & _).
    split; simpl; try done.
    + intros image c Hin. apply elem_of_app in Hin as [Hin | Hin]; [eauto |].
      apply list_elem_of_singleton in Hin. discriminate.
    + intros image. rewrite releases_app.
      specialize (inv_once0 image). rewrite (Hdel image _ k p Hk) in inv_once0.
      unfold releases at 2. simpl.
      destruct (bool_decide (p_image p = image)); simpl; lia.
    + intros image Hle. destruct (inv_fresh0 image Hle) as [Hr Ha].
      rewrite (Hdel image _ k p Hk) in Ha.
      rewrite releases_app, Hr. unfold releases. simpl.
      destruct (bool_decide (p_image p = image)); simpl; lia.
  - simpl. split; simpl; try done.
    + intros image. specialize (inv_once0 image).
      rewrite (Hdel image _ k p Hk) in inv_once0. lia.
    + intros image Hle. destruct (inv_fresh0 image Hle) as [Hr Ha].
      rewrite (Hdel image _ k p Hk) in Ha. lia.
Qed.

Lemma Inv_step e s s' :
  step NaN times100 toString e s = Some s' → Inv s → Inv s'.
Proof.
  intros He HI. destruct e as [m | | k o]; simpl in He.
  - destruct (dispatch_spec m s s' (inv_buttons s HI) He) as [-> Hv].
    by apply Inv_set_training.
  - destruct (frames s) as [|n] eqn:Hn; [discriminate |].
    injection He as <-.
    destruct (inv_running s HI) as [[m Hm] [v Hv]]; [left; lia |].
    rewrite (animate_running (set_frames n s) m v Hm Hv). simpl.
    eapply Inv_after_tick; [exact Hm | exact Hv |].
    by apply Inv_set_frames.
  - destruct (inflight s !! k) as [p|] eqn:Hk; simpl in He; [| discriminate].
    injection He as <-. by apply Inv_settle.
Qed.

Lemma Inv_reachable h s : reachable NaN times100 toString h s → Inv s.
Proof.
  induction 1 as [| s e s' _ IH He].
  - apply Inv_bindPage.
  - by eapply Inv_step.
Qed.

Lemma run_reachable h es : ∀ s s',
  reachable NaN times100 toString h s →
  run NaN times100 toString es s = Some s' →
  reachable NaN times100 toString h s'.
Proof.
  induction es as [|e es IH]; intros s s' Hreach Hrun; simpl in Hrun.
  - by injection Hrun as <-.
  - destruct (step NaN times100 toString e s) as [s1|] eqn:He;
      simpl in Hrun; [| discriminate].
    eapply IH; [| exact Hrun]. by eapply reach_step.
Qed.

End Reachable.

(** ** The render loop *)

Lemma predict_in_tick s m image :
  PredictClass image ∈ tick_calls s m →
  gt0 (Math_max (classExampleCount (trained s m))) = true.
Proof.
  unfold tick_calls. intros Hin.
  destruct (gt0 _); [done |].
  destruct (training s =? -1); simpl in Hin;
    repeat (apply elem_of_cons in Hin as [Hin | Hin]; [discriminate |]);
    inversion Hin.
Qed.

(** C1: a tick calls [predictClass] only when the counts it has just read
    hold a positive entry.  When every count is 0 no call is made, and at
    every call the classifier holds at least one example, so the failure
    of [predict] on zero stored examples cannot be triggered by the
    loop. *)
Theorem predict_needs_examples (s : State) (m : Classifier) :
  model s = Some m →
  Forall (λ c, 0 ≤ c) (classExampleCount m) →
  (Forall (λ c, c = 0) (classExampleCount (trained s m)) →
   ∀ image, PredictClass image ∉ calls_since s (snd (animate s)))
  ∧ (∀ image, PredictClass image ∈ calls_since s (snd (animate s)) →
     model (snd (animate s)) = Some (trained s m)
     ∧ (∃ c, c ∈ classExampleCount (trained s m) ∧ 0 < c)
     ∧ zero_example_failure (trained s m) = false).
Proof.
  intros Hm Hpos.
  assert (Hcalls : ∀ image, PredictClass image ∈ calls_since s (snd (animate s)) →
            model (snd (animate s)) = Some (trained s m)
            ∧ ∃ c, c ∈ classExampleCount (trained s m) ∧ 0 < c).
  { intros image. destruct (video s) as [v|] eqn:Hv.
    - rewrite (animate_running s m v Hm Hv). simpl snd.
      rewrite calls_since_tick. intros Hin. split; [done |].
      by apply Math_max_gt0, (predict_in_tick s m image).
    - rewrite (animate_no_video s Hv). unfold calls_since. simpl.
      rewrite calls_since_app. intros Hin.
      apply list_elem_of_singleton in Hin. discriminate. }
  split.
  - intros Hzero image Hin.
    destruct (Hcalls image Hin) as (_ & c & Hc & Hlt).
    rewrite Forall_forall in Hzero. apply list_elem_of_In in Hc.
    specialize (Hzero c Hc). lia.
  - intros image Hin. destruct (Hcalls image Hin) as (Hmodel & c & Hc & Hlt).
    split; [done |]. split; [by exists c |].
    unfold zero_example_failure. apply Z.eqb_neq.
    assert (0 < total (classExampleCount (trained s m))); [| lia].
    apply (total_pos _ c); [| done | done].
    unfold trained. destruct (training s =? -1); [done |].
    by apply addImage_nonneg.
Qed.

Lemma trains_in_tick s m :
  List.filter is_train (tick_calls s m)
  = if training s =? -1 then [] else [AddImage (nextImage s) (training s)].
Proof.
  unfold tick_calls.
  destruct (training s =? -1); destruct (gt0 _); reflexivity.
Qed.

(** C3: a tick that finds class [k] armed makes exactly one [addImage]
    call, for class [k], and the count of class [k] is afterwards one more
    than before while the other counts are as before; a tick that finds no
    class armed makes no [addImage] call and leaves the classifier as it
    was. *)
Theorem train_once_while_armed (s : State) (m : Classifier) (v : Video) :
  model s = Some m → video s = Some v →
  (training s = -1 →
   List.filter is_train (calls_since s (snd (animate s))) = []
   ∧ model (snd (animate s)) = Some m)
  ∧ (∀ k, training s = k → k ≠ -1 → 0 ≤ k →
     List.filter is_train (calls_since s (snd (animate s)))
     = [AddImage (nextImage s) k]
     ∧ ∃ m', model (snd (animate s)) = Some m'
         ∧ length (classExampleCount m') = length (classExampleCount m)
         ∧ ∀ i c, classExampleCount m !! i = Some c →
             classExampleCount m' !! i
             = Some (if decide (i = Z.to_nat k) then c + 1 else c)).
Proof.
  intros Hm Hv. rewrite (animate_running s m v Hm Hv). simpl snd.
  rewrite calls_since_tick, trains_in_tick. simpl model. unfold trained.
  split.
  - intros ->. done.
  - intros k <- Hk Hpos.
    apply Z.eqb_neq in Hk. rewrite Hk. split; [done |].
    exists (addImage m (training s)). split; [done |].
    split; [apply addImage_length |].
    intros i c Hi. unfold addImage.
    apply Z.leb_le in Hpos. rewrite Hpos. simpl.
    rewrite list_lookup_alter. repeat case_decide; subst; try done.
    by rewrite Hi.
Qed.

(** A tick writes neither [training] nor the spans, whatever state it
    finds. *)
Lemma animate_keeps s :
  training (snd (animate s)) = training s
  ∧ infoTexts (snd (animate s)) = infoTexts s
  ∧ buttons (snd (animate s)) = buttons s.
Proof.
  destruct (video s) as [v|] eqn:Hv.
  - destruct (model s) as [m|] eqn:Hm.
    + by rewrite (animate_running s m v Hm Hv).
    + destruct s as [tr it mo vi bu bo lo ma inf ni fl fr lg]; simpl in *.
      subst. js_unfold. simpl. by destruct (tr =? -1).
  - by rewrite (animate_no_video s Hv).
Qed.

Section Claims.
Context {number : Type}.
Variable NaN : number.
Variable times100 : number → number.
Variable toString : number → string.

Local Abbreviation show := (show NaN times100 toString).
Local Abbreviation settle := (settle NaN times100 toString).
Local Abbreviation step := (step NaN times100 toString).
Local Abbreviation reachable := (reachable NaN times100 toString).

Lemma step_settle s k p o :
  inflight s !! k = Some p →
  step (Settle k o) s
  = Some (snd (settle p o (set_inflight (delete k (inflight s)) s))).
Proof. intros Hk. unfold Camera.step. by rewrite Hk. Qed.

(** C6: a tick of a running page makes its calls in this order: capture
    of the frame, one [addImage] call if and only if a class is armed,
    the reading of the example counts, then either [predictClass] or the
    release of the frame, and last [requestAnimationFrame].  The tick
    completes normally and queues exactly one frame callback in its
    synchronous part; the settlement of the prediction, whenever it
    comes and however it ends, queues none. *)
Theorem tick_order (s : State) (m : Classifier) (v : Video) :
  model s = Some m → video s = Some v →
  fst (animate s) = Normal ()
  ∧ calls_since s (snd (animate s))
    = [StatsBegin; FromPixels (nextImage s)]
      ++ (if decide (training s = -1) then []
          else [AddImage (nextImage s) (training s)])
      ++ [GetClassExampleCount]
      ++ [if gt0 (Math_max (classExampleCount (trained s m)))
          then PredictClass (nextImage s) else Dispose (nextImage s)]
      ++ [StatsEnd; RequestAnimationFrame]
  ∧ frames (snd (animate s)) = S (frames s)
  ∧ ∀ p o s2,
      frames (snd (settle p o s2)) = frames s2
      ∧ RequestAnimationFrame ∉ calls_since s2 (snd (settle p o s2)).
Proof.
  intros Hm Hv. rewrite (animate_running s m v Hm Hv). simpl fst. simpl snd.
  split; [done |]. split.
  - rewrite calls_since_tick. unfold tick_calls.
    case_decide as Htr.
    + by rewrite Htr.
    + apply Z.eqb_neq in Htr. by rewrite Htr.
  - split; [done |]. intros p o s2.
    destruct (settle_frame NaN times100 toString p o s2)
      as (r & l' & cs & -> & Hcs).
    split; [done |]. unfold calls_since. simpl. rewrite calls_since_app.
    intros Hin. destruct Hcs as [-> | [-> _]].
    + inversion Hin.
    + apply list_elem_of_singleton in Hin. discriminate.
Qed.

Lemma shown_after ec res s i t' :
  length (infoTexts s) = NUM_CLASSES →
  infoTexts (snd (show ec res s)) !! i = Some t' →
  ∃ t, infoTexts s !! i = Some t ∧ t' = shown NaN times100 toString ec res i t.
Proof.
  intros Hlen Hi.
  destruct (show_ok NaN times100 toString ec res s Hlen) as (l' & E & Hl' & Hpt).
  rewrite E in Hi. simpl in Hi.
  destruct (lookup_lt_is_Some_2 (infoTexts s) i) as [t Ht].
  { rewrite Hlen, <- Hl'. apply lookup_lt_is_Some. eauto. }
  exists t. split; [done |]. rewrite (Hpt i t Ht) in Hi. congruence.
Qed.

(** The status text the display update leaves for class [i], given the
    count and the confidence it finds for it; and the text [setupGui] gives
    every span. *)
Lemma show_status_text :
  (∀ ec res s i t c x,
     length (infoTexts s) = NUM_CLASSES →
     infoTexts s !! i = Some t →
     ec !! i = Some c →
     confidences res !! i = Some x →
     innerText <$> infoTexts (snd (show ec res s)) !! i
     = Some (if 0 <? c
             then " " +:+ pretty c +:+ " examples - "
                      +:+ toString (times100 x) +:+ "%"
             else innerText t))
  ∧ (∀ t, t ∈ infoTexts (snd (setupGui initial)) →
       innerText t = " No examples added").
Proof.
  split.
  - intros ec res s i t c x Hlen Ht Hc Hx.
    destruct (show_ok NaN times100 toString ec res s Hlen) as (l' & -> & _ & Hpt).
    simpl. rewrite (Hpt i t Ht). simpl.
    unfold conf, status. by rewrite Hc, Hx.
  - intros t Hin. vm_compute in Hin.
    repeat (apply elem_of_cons in Hin as [-> | Hin]; [done |]).
    inversion Hin.
Qed.

(** The display update on a page with a span per class, for a prediction
    whose class index is a class of the page: it completes, the span of
    that class is bold and the span of every other class is normal. *)
Lemma show_marks_predicted ec (res : Prediction number) (s : State) :
  length (infoTexts s) = NUM_CLASSES →
  0 ≤ classIndex res < Z.of_nat NUM_CLASSES →
  fst (show ec res s) = Normal ()
  ∧ length (infoTexts (snd (show ec res s))) = NUM_CLASSES
  ∧ (∃ t, infoTexts (snd (show ec res s)) !! Z.to_nat (classIndex res) = Some t
          ∧ fontWeight t = "bold")
  ∧ ∀ i t, infoTexts (snd (show ec res s)) !! i = Some t →
      fontWeight t
      = if decide (i = Z.to_nat (classIndex res)) then "bold" else "normal".
Proof.
  intros Hlen Hk.
  assert (Hall : ∀ i t, infoTexts (snd (show ec res s)) !! i = Some t →
            fontWeight t
            = if decide (i = Z.to_nat (classIndex res)) then "bold" else "normal").
  { intros i t' Hi.
    destruct (shown_after ec res s i t' Hlen Hi) as (t & _ & ->).
    simpl. case_decide as Hd.
    - subst i. rewrite Z2Nat.id by lia. by rewrite Z.eqb_refl.
    - destruct (Z.eqb_spec (classIndex res) (Z.of_nat i)) as [E | _]; [| done].
      rewrite E, Nat2Z.id in Hd. done. }
  destruct (show_ok NaN times100 toString ec res s Hlen) as (l' & E & Hl' & Hpt).
  rewrite E in *. simpl in *.
  split; [done |]. split; [done |]. split; [| done].
  destruct (lookup_lt_is_Some_2 l' (Z.to_nat (classIndex res))) as [t Ht].
  { rewrite Hl'. lia. }
  exists t. split; [done |]. rewrite (Hall _ t Ht). by case_decide.
Qed.

(** C10: [setupGui] leaves exactly [NUM_CLASSES] status spans, the page
    has that many from then on, and with that many the display update
    finds a span at every index it visits: it completes without a
    [TypeError], as does the chain of any prediction the page waits
    for. *)
Theorem infoTexts_in_bounds :
  length (infoTexts (snd (setupGui initial))) = NUM_CLASSES
  ∧ (∀ h s, reachable h s → is_Some (model s) →
       length (infoTexts s) = NUM_CLASSES)
  ∧ (∀ ec res s, length (infoTexts s) = NUM_CLASSES →
       fst (show ec res s) = Normal ()
       ∧ ∀ i, (i < NUM_CLASSES)%nat →
           is_Some (infoTexts s !! i)
           ∧ is_Some (infoTexts (snd (show ec res s)) !! i))
  ∧ (∀ h s k p res, reachable h s → inflight s !! k = Some p →
       fst (settle p (Resolved res) (set_inflight (delete k (inflight s)) s))
       = Normal ()).
Proof.
  split; [reflexivity |]. split; [| split].
  - intros h s Hreach Hm.
    by apply (inv_texts s (Inv_reachable _ _ _ h s Hreach)).
  - intros ec res s Hlen.
    destruct (show_ok NaN times100 toString ec res s Hlen) as (l' & -> & Hl' & _).
    split; [done |]. intros i Hi. simpl.
    split; apply lookup_lt_is_Some; lia.
  - intros h s k p res Hreach Hk.
    pose proof (Inv_reachable _ _ _ h s Hreach) as HI.
    assert (Hrun : running s).
    { apply (inv_running s HI). right. intros E. by rewrite E in Hk. }
    destruct (settle_resolved NaN times100 toString p res
                (set_inflight (delete k (inflight s)) s))
      as (l' & -> & _); [apply (inv_texts s HI), Hrun | done].
Qed.

(** C9: in every state the page reaches, [training] is the sentinel -1
    or a class index below [NUM_CLASSES], and every [addImage] call the
    page has made was for a class index in [0, NUM_CLASSES). *)
Theorem training_is_class_or_none (h : Host) (s : State) :
  reachable h s →
  (training s = -1 ∨ 0 ≤ training s < Z.of_nat NUM_CLASSES)
  ∧ ∀ image k, AddImage image k ∈ log s → 0 ≤ k < Z.of_nat NUM_CLASSES.
Proof.
  intros Hreach. pose proof (Inv_reachable _ _ _ h s Hreach) as HI.
  split; [apply (inv_training s HI) | apply (inv_trains s HI)].
Qed.

(** Who writes [training]: a press, a release, and nothing else. *)
Lemma training_writes :
  training initial = -1
  ∧ (∀ h s e s', reachable h s → step e s = Some s' →
       training s'
       = match e with
         | Click (MouseDown i) => Z.of_nat i
         | Click (MouseUp _) => -1
         | AnimationFrame | Settle _ _ => training s
         end)
  ∧ (∀ s, training (snd (animate s)) = training s)
  ∧ (∀ p o s, training (snd (settle p o s)) = training s)
  ∧ (∀ h, during_setupCamera h = [] →
       training (snd (bindPage h initial)) = -1).
Proof.
  split; [reflexivity |]. split; [| split; [| split]].
  - intros h s e s' Hreach He.
    pose proof (Inv_reachable _ _ _ h s Hreach) as HI.
    destruct e as [m | | k o].
    + destruct (dispatch_spec m s s' (inv_buttons s HI) He) as [-> _].
      by destruct m.
    + simpl in He. destruct (frames s) as [|n]; [discriminate |].
      injection He as <-. by destruct (animate_keeps (set_frames n s)) as [-> _].
    + unfold Camera.step in He.
      destruct (inflight s !! k) as [p|]; simpl in He; [| discriminate].
      injection He as <-.
      by destruct (settle_frame NaN times100 toString p o
                     (set_inflight (delete k (inflight s)) s))
        as (r & l' & cs & -> & _).
  - intros s. apply animate_keeps.
  - intros p o s.
    by destruct (settle_frame NaN times100 toString p o s)
      as (r & l' & cs & -> & _).
  - intros h Hnone.
    assert (knn_load h = Some (Resolved ()) ∨ knn_load h ≠ Some (Resolved ()))
      as [Hload | Hload]
      by (destruct (knn_load h) as [[[] | msg] |]; (by left) || (by right)).
    + destruct (mediaDevices (navigator h) ≫= getUserMedia) as [stream|] eqn:Hgum.
      * unfold bindPage, loadKNN, setupCamera.
        rewrite Hload, Hgum, Hnone.
        destruct stream as [[[] | msg] |]; destruct (loadedmetadata h);
          reflexivity.
      * by rewrite (bindPage_unsupported h Hload Hgum).
    + by destruct (bindPage_not_loaded h Hload) as [-> _].
Qed.

End Claims.

(** ** Start-up without a camera *)

(** C7: on a host without [navigator.mediaDevices], or without its
    [getUserMedia], [setupCamera] throws, before asking for anything, the
    error that says the API is not available; [bindPage] then shows the
    info element with the fallback message and is rejected with that same
    error.  The rows and buttons made by [setupGui] are on the page, and no
    tick was run. *)
Theorem no_camera_fallback (h : Host) :
  knn_load h = Some (Resolved ()) →
  (mediaDevices (navigator h) = None
   ∨ ∃ md, mediaDevices (navigator h) = Some md ∧ getUserMedia md = None) →
  (∀ s, setupCamera h s
        = (Throw "Browser API navigator.mediaDevices.getUserMedia not available", s))
  ∧ fst (bindPage h initial)
    = Throw "Browser API navigator.mediaDevices.getUserMedia not available"
  ∧ info (snd (bindPage h initial))
    = {| display := "block";
         textContent :=
           "this browser does not support video capture,or this device does not have a camera" |}
  ∧ length (buttons (snd (bindPage h initial))) = NUM_CLASSES
  ∧ (∀ i, (i < NUM_CLASSES)%nat →
       TrainingRow i ∈ body (snd (bindPage h initial))
       ∧ ∃ b, buttons (snd (bindPage h initial)) !! i = Some b
              ∧ buttonText b = "Train " +:+ pretty i)
  ∧ video (snd (bindPage h initial)) = None
  ∧ log (snd (bindPage h initial)) = []
  ∧ frames (snd (bindPage h initial)) = 0%nat.
Proof.
  intros Hload Hno.
  assert (Hgum : mediaDevices (navigator h) ≫= getUserMedia = None).
  { destruct Hno as [-> | (md & -> & Hmd)]; [done | exact Hmd]. }
  split.
  - intros s. unfold setupCamera. by rewrite Hgum.
  - rewrite (bindPage_unsupported h Hload Hgum). simpl.
    repeat (split; [done |]). split; [| done].
    intros [|[|[|i]]] Hi; try (unfold NUM_CLASSES in Hi; lia).
    + split; [repeat constructor | by eexists].
    + split; [repeat constructor | by eexists].
    + split; [repeat constructor | by eexists].
Qed.

(** ** The statements on a concrete page *)

(** The first tick of [desktop] is [animate] run on [armed_page]. *)
Lemma bindPage_desktop : bindPage desktop initial = animate armed_page.
Proof. reflexivity. Qed.

Example five_examples_shown :
  (λ s, (classExampleCount <$> model s, infoTexts s, training s)) <$> five_examples
  = Some (Some [5; 0; 0],
          [{| innerText := " 5 examples - 100%"; fontWeight := "bold" |};
           {| innerText := " No examples added"; fontWeight := "normal" |};
           {| innerText := " No examples added"; fontWeight := "normal" |}],
          -1).
Proof. vm_compute. reflexivity. Qed.

(** C2, counterexample: the first tick on [desktop] captures image 0 and
    asks for its prediction; when that prediction is rejected the page has
    made no [dispose] call for image 0 and no chain is left that could
    make one. *)
Lemma rejected_prediction_never_released :
  log <$> after_rejection
  = Some [GetUserMedia (Some 300) (Some 250); StatsBegin; FromPixels 0;
          AddImage 0 0; GetClassExampleCount; PredictClass 0; StatsEnd;
          RequestAnimationFrame]
  ∧ inflight <$> after_rejection = Some []
  ∧ (releases 0 ∘ log) <$> after_rejection = Some 0%nat
  ∧ ∃ s, after_rejection = Some s ∧ reachable 0 (Z.mul 100) pretty desktop s.
Proof.
  split; [vm_compute; reflexivity |].
  split; [vm_compute; reflexivity |].
  split; [vm_compute; reflexivity |].
  exists leaked. split; [vm_compute; reflexivity |].
  apply (reach_step 0 (Z.mul 100) pretty desktop first_tick
           (Settle 0%nat (Rejected "prediction failed")) leaked).
  - apply reach_bindPage.
  - vm_compute. reflexivity.
Qed.

(** The first tick of [desktop]: class 0 is armed, the tick trains it and
    asks for a prediction. *)
Lemma predict_needs_examples_witness :
  model armed_page = Some (load NUM_CLASSES TOPK)
  ∧ PredictClass 0 ∈ calls_since armed_page (snd (animate armed_page))
  ∧ ((Forall (λ c, c = 0) (classExampleCount (trained armed_page (load NUM_CLASSES TOPK))) →
      ∀ image, PredictClass image ∉ calls_since armed_page (snd (animate armed_page)))
     ∧ (∀ image, PredictClass image ∈ calls_since armed_page (snd (animate armed_page)) →
        model (snd (animate armed_page)) = Some (trained armed_page (load NUM_CLASSES TOPK))
        ∧ (∃ c, c ∈ classExampleCount (trained armed_page (load NUM_CLASSES TOPK)) ∧ 0 < c)
        ∧ zero_example_failure (trained armed_page (load NUM_CLASSES TOPK)) = false)).
Proof.
  split; [reflexivity |]. split.
  - vm_compute. repeat constructor.
  - apply (predict_needs_examples armed_page (load NUM_CLASSES TOPK)).
    + reflexivity.
    + repeat constructor; discriminate.
Defined.

(** The first tick of [desktop] makes the one call [addImage(image 0, 0)]
    and the count of class 0 goes from 0 to 1. *)
Lemma train_once_while_armed_witness :
  model armed_page = Some (load NUM_CLASSES TOPK)
  ∧ video armed_page = Some the_video
  ∧ training armed_page = 0
  ∧ List.filter is_train (calls_since armed_page (snd (animate armed_page)))
    = [AddImage 0 0]
  ∧ ∃ m', model (snd (animate armed_page)) = Some m'
      ∧ ∀ i c, [0; 0; 0] !! i = Some c →
          classExampleCount m' !! i
          = Some (if decide (i = 0%nat) then c + 1 else c).
Proof.
  split; [reflexivity |]. split; [reflexivity |]. split; [reflexivity |].
  destruct (train_once_while_armed armed_page (load NUM_CLASSES TOPK) the_video
              eq_refl eq_refl) as [_ H].
  destruct (H 0 eq_refl) as [Hcalls (m' & Hm' & _ & Hcounts)];
    [discriminate | discriminate |].
  split; [exact Hcalls |]. exists m'. split; [exact Hm' | exact Hcounts].
Defined.

(** The calls of the first tick of [desktop], in order. *)
Lemma tick_order_witness :
  model armed_page = Some (load NUM_CLASSES TOPK)
  ∧ video armed_page = Some the_video
  ∧ fst (animate armed_page) = Normal ()
  ∧ calls_since armed_page (snd (animate armed_page))
    = [StatsBegin; FromPixels 0; AddImage 0 0; GetClassExampleCount;
       PredictClass 0; StatsEnd; RequestAnimationFrame]
  ∧ frames (snd (animate armed_page)) = 1%nat.
Proof.
  split; [reflexivity |]. split; [reflexivity |].
  destruct (tick_order 0 (Z.mul 100) pretty armed_page (load NUM_CLASSES TOPK)
              the_video eq_refl eq_refl) as (Hnormal & Hcalls & Hframes & _).
  split; [exact Hnormal |]. split; [exact Hcalls | exact Hframes].
Defined.

(** Start-up on the browser without [navigator.mediaDevices]. *)
Lemma no_camera_fallback_witness :
  knn_load no_camera = Some (Resolved ())
  ∧ mediaDevices (navigator no_camera) = None
  ∧ fst (bindPage no_camera initial)
    = Throw "Browser API navigator.mediaDevices.getUserMedia not available"
  ∧ display (info (snd (bindPage no_camera initial))) = "block"
  ∧ length (buttons (snd (bindPage no_camera initial))) = NUM_CLASSES.
Proof.
  split; [reflexivity |]. split; [reflexivity |].
  destruct (no_camera_fallback no_camera eq_refl (or_introl eq_refl))
    as (_ & Hthrow & Hinfo & Hbuttons & _).
  split; [exact Hthrow |]. split; [by rewrite Hinfo | exact Hbuttons].
Defined.

(** The page of [desktop] after start-up. *)
Lemma training_is_class_or_none_witness :
  reachable 0 (Z.mul 100) pretty desktop first_tick
  ∧ (training first_tick = -1 ∨ 0 ≤ training first_tick < Z.of_nat NUM_CLASSES)
  ∧ ∀ image k, AddImage image k ∈ log first_tick → 0 ≤ k < Z.of_nat NUM_CLASSES.
Proof.
  split; [apply reach_bindPage |].
  apply (training_is_class_or_none 0 (Z.mul 100) pretty desktop first_tick).
  apply reach_bindPage.
Defined.

(** ** Further facts: the user agent *)

Lemma occurs_at_spec p : ∀ s,
  occurs_at p s = true ↔ ∃ mid post, s = mid +:+ post ∧ fold_case mid = fold_case p.
Proof.
  induction p as [|a p IH]; intros s; simpl.
  - split; [| done]. intros _. by exists "", s.
  - destruct s as [|b s]; simpl.
    + split; [done |]. intros (mid & post & E & F).
      destruct mid; simpl in *; discriminate.
    + rewrite andb_true_iff, IH. split.
      * intros [Hab (mid & post & -> & F)].
        exists (String b mid), post. split; [done |]. simpl.
        apply Ascii.eqb_eq in Hab. by rewrite F, Hab.
      * intros (mid & post & E & F).
        destruct mid as [|c mid]; simpl in *; [discriminate |].
        injection E as -> ->. injection F as Hc F.
        split; [apply Ascii.eqb_eq; done | by exists mid, post].
Qed.

Lemma occurs_spec p : ∀ s,
  occurs p s = true ↔
  ∃ pre mid post, s = pre +:+ mid +:+ post ∧ fold_case mid = fold_case p.
Proof.
  induction s as [|b s IH]; simpl.
  - rewrite orb_false_r, occurs_at_spec. split.
    + intros (mid & post & E & F). by exists "", mid, post.
    + intros (pre & mid & post & E & F).
      destruct pre; simpl in E; [| discriminate]. by exists mid, post.
  - rewrite orb_true_iff, occurs_at_spec, IH. split.
    + intros [(mid & post & E & F) | (pre & mid & post & E & F)].
      * by exists "", mid, post.
      * exists (String b pre), mid, post. simpl. by rewrite E.
    + intros (pre & mid & post & E & F).
      destruct pre as [|c pre]; simpl in E.
      * left. by exists mid, post.
      * right. injection E as -> E. by exists pre, mid, post.
Qed.

Lemma set_training_id s : set_training (training s) s = s.
Proof. by destruct s. Qed.

Lemma run_listeners_only_arm ls : ∀ s,
  ∃ t, run_listeners ls s = (Normal (), set_training t s).
Proof.
  induction ls as [|[v] ls IH]; intros s; simpl.
  - exists (training s). by rewrite set_training_id.
  - unfold bind, modify. simpl.
    destruct (IH (set_training v s)) as (t & ->). by exists t.
Qed.

(** Whatever the buttons of the page, the clicks made during an [await]
    write [training] and nothing else. *)
Lemma meanwhile_only_arms es : ∀ s,
  ∃ t, meanwhile es s = (Normal (), set_training t s).
Proof.
  induction es as [|e es IH]; intros s; simpl.
  - exists (training s). by rewrite set_training_id.
  - unfold bind at 1, modify at 1.
    assert (∃ t, default s (dispatch e s) = set_training t s) as (t1 & ->).
    { destruct e as [i | i]; simpl; (destruct (buttons s !! i) as [b|]; simpl;
        [| exists (training s); by rewrite set_training_id]).
      - destruct (run_listeners_only_arm (mousedown b) s) as (t & ->). by exists t.
      - destruct (run_listeners_only_arm (mouseup b) s) as (t & ->). by exists t. }
    destruct (IH (set_training t1 s)) as (t & ->). by exists t.
Qed.

(** X1: [isMobile()] holds exactly when the user agent contains, letters
    compared without regard to case, one of the words Android, iPhone, iPad
    or iPod; and [setupCamera], when [getUserMedia] exists, makes one call,
    the request for the camera, without a width and a height exactly when
    [isMobile()] holds and with 300 by 250 otherwise. *)
Theorem isMobile_by_user_agent (userAgent : string) (md : MediaDevices) :
  (isMobile (navigator_of userAgent (Some md)) = true ↔
   ∃ word, word ∈ ["Android"; "iPhone"; "iPad"; "iPod"]
     ∧ ∃ pre mid post, userAgent = pre +:+ mid +:+ post
         ∧ fold_case mid = fold_case word)
  ∧ (∀ h s, navigator h = navigator_of userAgent (Some md) →
       is_Some (getUserMedia md) →
       log (snd (setupCamera h s))
       = log s ++ [if isMobile (navigator_of userAgent (Some md))
                   then GetUserMedia None None
                   else GetUserMedia (Some 300) (Some 250)]).
Proof.
  split.
  - unfold isMobile, navigator_of, isAndroid_of, isiOS_of, test_i. simpl.
    rewrite !orb_false_r, !orb_true_iff, !occurs_spec. split.
    + intros [H | [H | [H | H]]]; eexists; (split; [| exact H]);
        repeat constructor.
    + intros (word & Hin & H).
      repeat (apply elem_of_cons in Hin as [-> | Hin]; [tauto |]).
      inversion Hin.
  - intros h s Hn [stream Hgum]. unfold setupCamera. rewrite Hn.
    cbn [mediaDevices navigator_of mbind option_bind]. rewrite Hgum.
    unfold bind at 1, call at 1, modify at 1. unfold bind at 1.
    match goal with |- context [meanwhile ?es ?s0] =>
      destruct (meanwhile_only_arms es s0) as (t & ->) end.
    unfold bind at 1.
    destruct stream as [[[] | msg] |]; simpl;
      [destruct (loadedmetadata h); simpl | |];
      by destruct (isMobile _).
Qed.

(** ** Further facts: the guard of the prediction *)

Lemma fold_max_finite xs : ∀ y, ∃ m, fold_left max2 xs (Finite y) = Finite m
  ∧ (m = y ∨ m ∈ xs) ∧ y ≤ m ∧ ∀ x, x ∈ xs → x ≤ m.
Proof.
  induction xs as [|x xs IH]; intros y; simpl.
  - exists y. repeat split; [by left | lia |]. intros x Hx. inversion Hx.
  - destruct (IH (Z.max y x)) as (m & -> & Hm & Hle & Hall).
    exists m. split; [done |]. split; [| split; [lia |]].
    + destruct Hm as [-> | Hm]; [| right; by right].
      destruct (Z.max_spec y x) as [[_ ->] | [_ ->]]; [right; left | by left].
    + intros z Hz. apply elem_of_cons in Hz as [-> | Hz]; [lia | by apply Hall].
Qed.

(** X2: [Math.max(...exampleCount)] is [-Infinity] exactly for the empty
    array and otherwise the greatest entry, so the guard
    [Math.max(...exampleCount) > 0] of the prediction is false for the empty
    array and for an array without a positive entry, and true as soon as one
    entry is positive, whatever the others are. *)
Theorem guard_of_prediction (exampleCount : list Z) :
  (Math_max exampleCount = NegInfinity ↔ exampleCount = [])
  ∧ (∀ m, Math_max exampleCount = Finite m →
       m ∈ exampleCount ∧ ∀ c, c ∈ exampleCount → c ≤ m)
  ∧ (gt0 (Math_max exampleCount) = true ↔ ∃ c, c ∈ exampleCount ∧ 0 < c)
  ∧ (Forall (λ c, c ≤ 0) exampleCount → gt0 (Math_max exampleCount) = false).
Proof.
  assert (Hfin : ∀ x xs, ∃ m, Math_max (x :: xs) = Finite m
            ∧ m ∈ x :: xs ∧ ∀ c, c ∈ x :: xs → c ≤ m).
  { intros x xs. unfold Math_max. simpl.
    destruct (fold_max_finite xs x) as (m & -> & Hm & Hle & Hall).
    exists m. split; [done |]. split.
    - destruct Hm as [-> | Hm]; [left | by right].
    - intros c Hc. apply elem_of_cons in Hc as [-> | Hc]; [done | by apply Hall]. }
  split; [| split; [| split]].
  - destruct exampleCount as [|x xs]; [done |].
    destruct (Hfin x xs) as (m & -> & _). done.
  - intros m Hm. destruct exampleCount as [|x xs]; [discriminate |].
    destruct (Hfin x xs) as (m' & E & Hin & Hall).
    rewrite E in Hm. injection Hm as <-. done.
  - apply Math_max_gt0.
  - intros Hall. destruct (gt0 (Math_max exampleCount)) eqn:E; [| done].
    apply Math_max_gt0 in E as (c & Hc & Hpos).
    rewrite Forall_forall in Hall. apply list_elem_of_In in Hc.
    specialize (Hall c Hc). lia.
Qed.

(** ** Further facts: a tick on any page *)

Lemma animate_no_model s v :
  video s = Some v → model s = None →
  animate s = (Throw "TypeError: model is undefined",
               set_log (log s ++ [StatsBegin; FromPixels (nextImage s)])
                 (set_nextImage (S (nextImage s)) s)).
Proof.
  destruct s as [tr it mo vi bu bo lo ma inf ni fl fr lg]; simpl.
  intros -> ->. js_unfold; simpl.
  destruct (tr =? -1); simpl; by rewrite <- ?app_assoc.
Qed.

Lemma last_tick_calls s m : list.last (tick_calls s m) = Some RequestAnimationFrame.
Proof.
  unfold tick_calls. destruct (training s =? -1); destruct (gt0 _); reflexivity.
Qed.

(** X3: [animate] completes exactly when both [model] and [video] are
    assigned.  When it completes it has queued one frame callback, by its
    last call.  When it throws it has queued none, has neither released a
    frame nor asked for a prediction, and the loop is over; if it threw on
    the missing model, the frame it had captured stays unreleased. *)
Theorem tick_reschedules_iff_completes (s : State) :
  (fst (animate s) = Normal () ↔ is_Some (model s) ∧ is_Some (video s))
  ∧ (fst (animate s) = Normal () →
       frames (snd (animate s)) = S (frames s)
       ∧ list.last (calls_since s (snd (animate s))) = Some RequestAnimationFrame)
  ∧ (fst (animate s) ≠ Normal () →
       frames (snd (animate s)) = frames s
       ∧ inflight (snd (animate s)) = inflight s
       ∧ ∀ c, c ∈ calls_since s (snd (animate s)) →
           c = StatsBegin ∨ c = FromPixels (nextImage s))
  ∧ (is_Some (video s) → model s = None →
       calls_since s (snd (animate s)) = [StatsBegin; FromPixels (nextImage s)]).
Proof.
  destruct (video s) as [v|] eqn:Hv; [destruct (model s) as [m|] eqn:Hm |].
  - rewrite (animate_running s m v Hm Hv). simpl fst. simpl snd.
    rewrite calls_since_tick.
    split; [split; [intros _; split; by eexists | done] |].
    split; [intros _; split; [done | apply last_tick_calls] |].
    split; [done |]. intros _ [=].
  - rewrite (animate_no_model s v Hv Hm). simpl fst. simpl snd.
    unfold calls_since. simpl log. rewrite calls_since_app.
    split; [split; [done | by intros [[m' [=]] _]] |].
    split; [done |]. split; [| done].
    intros _. split; [done |]. split; [done |].
    intros c Hc. apply elem_of_cons in Hc as [-> | Hc]; [by left |].
    apply list_elem_of_singleton in Hc as ->. by right.
  - rewrite (animate_no_video s Hv). simpl fst. simpl snd.
    unfold calls_since. simpl log. rewrite calls_since_app.
    split; [split; [done | by intros [_ [v' [=]]]] |].
    split; [done |]. split; [| by intros [v' [=]]].
    intros _. split; [done |]. split; [done |].
    intros c Hc. apply list_elem_of_singleton in Hc as ->. by left.
Qed.

(** ** Further facts: the paths of start-up *)

Lemma loaded_or_not h :
  knn_load h = Some (Resolved ()) ∨ knn_load h ≠ Some (Resolved ()).
Proof. destruct (knn_load h) as [[[] | msg] |]; (by left) || (by right). Qed.

(** The page on which [bindPage] calls [animate]. *)
Lemma bindPage_normal h :
  fst (bindPage h initial) = Normal () →
  knn_load h = Some (Resolved ())
  ∧ mediaDevices (navigator h) ≫= getUserMedia = Some (Some (Resolved ()))
  ∧ loadedmetadata h = true
  ∧ ∃ t, valid_training t
      ∧ bindPage h initial
        = (Normal (),
           after_tick (set_video (Some the_video)
                         (set_training t (set_log [asked h] booted)))
             (load NUM_CLASSES TOPK)).
Proof.
  intros Hn. destruct (loaded_or_not h) as [Hload | Hload].
  - destruct (mediaDevices (navigator h) ≫= getUserMedia) as [stream|] eqn:Hgum.
    + destruct (bindPage_supported h stream Hload Hgum) as (t & Ht & E).
      simpl in E. rewrite E in Hn |- *.
      destruct stream as [[[] | msg] |]; try discriminate.
      destruct (loadedmetadata h); [| discriminate].
      split; [done |]. split; [done |]. split; [done |].
      exists t. split; [done |].
      by erewrite animate_running by reflexivity.
    + by rewrite (bindPage_unsupported h Hload Hgum) in Hn.
  - by destruct (bindPage_not_loaded h Hload) as [_ Hne].
Qed.

(** The page when [bindPage] does not get as far as [animate]. *)
Lemma bindPage_abnormal h :
  fst (bindPage h initial) ≠ Normal () →
  frames (snd (bindPage h initial)) = 0%nat
  ∧ inflight (snd (bindPage h initial)) = []
  ∧ video (snd (bindPage h initial)) = None
  ∧ (log (snd (bindPage h initial)) = []
     ∨ log (snd (bindPage h initial)) = [asked h]).
Proof.
  intros Hn. destruct (loaded_or_not h) as [Hload | Hload].
  - destruct (mediaDevices (navigator h) ≫= getUserMedia) as [stream|] eqn:Hgum.
    + destruct (bindPage_supported h stream Hload Hgum) as (t & Ht & E).
      simpl in E. rewrite E in Hn |- *.
      destruct stream as [[[] | msg] |]; simpl; try (by repeat split; auto).
      destruct (loadedmetadata h); simpl; [| by repeat split; auto].
      by erewrite animate_running in Hn by reflexivity.
    + rewrite (bindPage_unsupported h Hload Hgum). simpl. by repeat split; auto.
  - destruct (bindPage_not_loaded h Hload) as [-> _]. simpl. by repeat split; auto.
Qed.

Lemma getUserMedia_lookup h x :
  mediaDevices (navigator h) ≫= getUserMedia = Some x ↔
  ∃ md, mediaDevices (navigator h) = Some md ∧ getUserMedia md = Some x.
Proof.
  destruct (mediaDevices (navigator h)) as [md|]; simpl; split.
  - intros H. by exists md.
  - by intros (md' & [= <-] & H).
  - done.
  - by intros (md' & [=] & _).
Qed.

(** X4: [bindPage] gets as far as the animation loop, and then completes,
    exactly when the model loads, [getUserMedia] exists and grants a stream,
    and the video element reports its metadata.  The page then shows the
    main container instead of the loading indicator, keeps the info element
    hidden, plays the 300 by 250 video, holds the three training rows and
    the stats panel, and has one frame callback queued. *)
Theorem startup_completes_iff (h : Host) :
  (fst (bindPage h initial) = Normal () ↔
   knn_load h = Some (Resolved ())
   ∧ (∃ md, mediaDevices (navigator h) = Some md
        ∧ getUserMedia md = Some (Some (Resolved ())))
   ∧ loadedmetadata h = true)
  ∧ (fst (bindPage h initial) = Normal () →
     display (loading (snd (bindPage h initial))) = "none"
     ∧ display (main (snd (bindPage h initial))) = "block"
     ∧ display (info (snd (bindPage h initial))) = "none"
     ∧ video (snd (bindPage h initial))
       = Some {| width := 300; height := 250; hasStream := true; playing := true |}
     ∧ body (snd (bindPage h initial))
       = [TrainingRow 0; TrainingRow 1; TrainingRow 2; StatsDom]
     ∧ frames (snd (bindPage h initial)) = 1%nat).
Proof.
  split; [split |].
  - intros Hn. destruct (bindPage_normal h Hn) as (Hload & Hgum & Hmeta & _).
    by rewrite getUserMedia_lookup in Hgum.
  - intros (Hload & Hgum & Hmeta). rewrite <- getUserMedia_lookup in Hgum.
    destruct (bindPage_supported h _ Hload Hgum) as (t & Ht & E).
    simpl in E. rewrite E, Hmeta.
    by erewrite animate_running by reflexivity.
  - intros Hn. destruct (bindPage_normal h Hn) as (_ & _ & _ & t & _ & ->).
    done.
Qed.

(** X5: when [getUserMedia] exists but its promise is rejected (the user
    denies the camera, say), [bindPage] shows the same fallback message as
    on a browser without the API and is rejected with the error of
    [getUserMedia]; the camera was asked for once, [video] stays unassigned
    and no tick is run. *)
Theorem camera_denied_fallback (h : Host) (md : MediaDevices) (msg : string) :
  knn_load h = Some (Resolved ()) →
  mediaDevices (navigator h) = Some md →
  getUserMedia md = Some (Some (Rejected msg)) →
  fst (bindPage h initial) = Throw msg
  ∧ info (snd (bindPage h initial))
    = {| display := "block";
         textContent :=
           "this browser does not support video capture,or this device does not have a camera" |}
  ∧ video (snd (bindPage h initial)) = None
  ∧ log (snd (bindPage h initial))
    = [GetUserMedia (if isMobile (navigator h) then None else Some 300)
                    (if isMobile (navigator h) then None else Some 250)]
  ∧ frames (snd (bindPage h initial)) = 0%nat
  ∧ length (buttons (snd (bindPage h initial))) = NUM_CLASSES.
Proof.
  intros Hload Hmd Hgum.
  assert (Hs : mediaDevices (navigator h) ≫= getUserMedia = Some (Some (Rejected msg)))
    by (apply getUserMedia_lookup; eauto).
  destruct (bindPage_supported h _ Hload Hs) as (t & Ht & E).
  simpl in E. by rewrite E.
Qed.

(** X6: when the stream is granted but the video element never reports its
    metadata, or when the promise of [getUserMedia] never settles,
    [bindPage] stays suspended: the camera was asked for, but no message is
    shown, [video] stays unassigned and no tick is run. *)
Theorem camera_pending (h : Host) (md : MediaDevices) :
  knn_load h = Some (Resolved ()) →
  mediaDevices (navigator h) = Some md →
  getUserMedia md = Some None
  ∨ (getUserMedia md = Some (Some (Resolved ())) ∧ loadedmetadata h = false) →
  fst (bindPage h initial) = Suspended
  ∧ display (info (snd (bindPage h initial))) = "none"
  ∧ display (main (snd (bindPage h initial))) = "block"
  ∧ video (snd (bindPage h initial)) = None
  ∧ log (snd (bindPage h initial)) = [asked h]
  ∧ frames (snd (bindPage h initial)) = 0%nat.
Proof.
  intros Hload Hmd [Hgum | [Hgum Hmeta]].
  - assert (Hs : mediaDevices (navigator h) ≫= getUserMedia = Some None)
      by (apply getUserMedia_lookup; eauto).
    destruct (bindPage_supported h _ Hload Hs) as (t & Ht & E).
    simpl in E. by rewrite E.
  - assert (Hs : mediaDevices (navigator h) ≫= getUserMedia
                 = Some (Some (Resolved ())))
      by (apply getUserMedia_lookup; eauto).
    destruct (bindPage_supported h _ Hload Hs) as (t & Ht & E).
    simpl in E. by rewrite E, Hmeta.
Qed.

(** ** Further facts: the page over its whole life *)

Section Life.
Context {number : Type}.
Variable NaN : number.
Variable times100 : number → number.
Variable toString : number → string.

Local Abbreviation show := (show NaN times100 toString).
Local Abbreviation settle := (settle NaN times100 toString).
Local Abbreviation step := (step NaN times100 toString).
Local Abbreviation run := (run NaN times100 toString).
Local Abbreviation reachable := (reachable NaN times100 toString).

(** What one turn of the event loop does to a page that satisfies the
    invariants. *)
Lemma step_cases e s s' :
  Inv s → step e s = Some s' →
  (∃ m, e = Click m ∧ s' = set_training (armed_by m) s)
  ∨ (∃ n m v, e = AnimationFrame ∧ frames s = S n ∧ model s = Some m
       ∧ video s = Some v ∧ s' = after_tick (set_frames n s) m)
  ∨ (∃ k o p l' cs, e = Settle k o ∧ inflight s !! k = Some p
       ∧ s' = set_log (log s ++ cs)
                (set_infoTexts l' (set_inflight (delete k (inflight s)) s))
       ∧ cs = match o with
              | Resolved _ => [Dispose (p_image p)]
              | Rejected _ => []
              end).
Proof.
  intros HI He. destruct e as [m | | k o].
  - left. exists m. split; [done |].
    by destruct (dispatch_spec m s s' (inv_buttons s HI) He) as [-> _].
  - right; left. simpl in He. destruct (frames s) as [|n] eqn:Hn; [discriminate |].
    injection He as <-.
    destruct (inv_running s HI) as [[m Hm] [v Hv]]; [left; lia |].
    exists n, m, v. repeat (split; [done |]).
    by rewrite (animate_running (set_frames n s) m v Hm Hv).
  - right; right. unfold Camera.step in He.
    destruct (inflight s !! k) as [p|] eqn:Hk; simpl in He; [| discriminate].
    injection He as <-.
    assert (Hrun : running s).
    { apply (inv_running s HI). right. intros E. by rewrite E in Hk. }
    destruct o as [res | msg].
    + destruct (settle_resolved NaN times100 toString p res
                  (set_inflight (delete k (inflight s)) s))
        as (l' & -> & _); [apply (inv_texts s HI), Hrun |].
      by exists k, (Resolved res), p, l', [Dispose (p_image p)].
    + exists k, (Rejected msg), p, (infoTexts s), []. simpl.
      rewrite app_nil_r. repeat (split; [done |]). done.
Qed.

(** X7: once [bindPage] has completed, the page has in every state it
    reaches, whatever the clicks, ticks and settlements, exactly one frame
    callback queued, and [model] and [video] assigned: the animation loop
    neither stops nor doubles. *)
Theorem loop_stays_alive (h : Host) (s : State) :
  fst (bindPage h initial) = Normal () →
  reachable h s →
  frames s = 1%nat ∧ is_Some (model s) ∧ is_Some (video s).
Proof.
  intros Hn Hreach. induction Hreach as [| s e s' Hreach IH He].
  - destruct (bindPage_normal h Hn) as (_ & _ & _ & t & _ & ->). simpl.
    repeat split; by eexists.
  - destruct IH as (Hf & Hm & Hv).
    destruct (step_cases e s s' (Inv_reachable _ _ _ h s Hreach) He)
      as [(m & _ & ->) | [(n & m & v & _ & Hn' & Hm' & Hv' & ->)
                         | (k & o & p & l' & cs & _ & _ & -> & _)]];
      simpl; try done.
    split; [lia |]. split; [by eexists | by rewrite Hv'; eexists].
Qed.

(** X8: when [bindPage] does not complete, no state the page reaches has a
    frame callback or a prediction pending; the only events that can happen
    are clicks, [video] stays unassigned and the page never captures a
    frame, trains or predicts: its log holds at most the request for the
    camera. *)
Theorem no_tick_without_camera (h : Host) (s : State) :
  fst (bindPage h initial) ≠ Normal () →
  reachable h s →
  frames s = 0%nat ∧ inflight s = [] ∧ video s = None
  ∧ (log s = [] ∨ log s = [asked h])
  ∧ ∀ e s', step e s = Some s' → ∃ m, e = Click m.
Proof.
  intros Hn Hreach.
  assert (H4 : frames s = 0%nat ∧ inflight s = [] ∧ video s = None
               ∧ (log s = [] ∨ log s = [asked h])).
  { induction Hreach as [| s e s' Hreach IH He].
    - by apply bindPage_abnormal.
    - destruct IH as (Hf & Hi & Hv & Hl).
      destruct (step_cases e s s' (Inv_reachable _ _ _ h s Hreach) He)
        as [(m & _ & ->) | [(n & m & v & _ & Hn' & _)
                           | (k & o & p & l' & cs & _ & Hk & _)]].
      + done.
      + lia.
      + by rewrite Hi in Hk. }
  destruct H4 as (Hf & Hi & Hv & Hl). repeat (split; [done |]).
  intros e s' He.
  destruct (step_cases e s s' (Inv_reachable _ _ _ h s Hreach) He)
    as [(m & -> & _) | [(n & m & v & _ & Hn' & _)
                       | (k & o & p & l' & cs & _ & Hk & _)]].
  - by exists m.
  - lia.
  - by rewrite Hi in Hk.
Qed.

(** X9: when the model does not load (its promise is rejected or never
    settles), [bindPage] ends there, rejected with the error of [knn.load]
    or suspended, and the page stays for ever as it was loaded: the loading
    indicator shown, no button, no span, and no event of the loop can
    happen. *)
Theorem model_not_loaded (h : Host) (s : State) :
  knn_load h ≠ Some (Resolved ()) →
  reachable h s →
  s = initial
  ∧ fst (bindPage h initial)
    = match knn_load h with
      | Some (Rejected msg) => Throw msg
      | _ => Suspended
      end
  ∧ ∀ e, step e s = None.
Proof.
  intros Hload Hreach.
  assert (Hs : s = initial).
  { induction Hreach as [| s e s' Hreach IH He].
    - by destruct (bindPage_not_loaded h Hload) as [-> _].
    - subst s. destruct e as [[i | i] | | k o]; simpl in He; discriminate. }
  split; [done |]. split.
  - unfold bindPage, loadKNN, bind at 1 2.
    by destruct (knn_load h) as [[[] | msg] |].
  - subst s. by intros [[i | i] | | k o].
Qed.

Lemma no_getUserMedia_in_tick s m :
  List.filter is_getUserMedia (tick_calls s m) = [].
Proof.
  unfold tick_calls. destruct (training s =? -1); destruct (gt0 _); reflexivity.
Qed.

Lemma getUserMedia_calls_kept e s s' :
  Inv s → step e s = Some s' →
  List.filter is_getUserMedia (log s') = List.filter is_getUserMedia (log s).
Proof.
  intros HI He.
  destruct (step_cases e s s' HI He)
    as [(m & _ & ->) | [(n & m & v & _ & _ & _ & _ & ->)
                       | (k & o & p & l' & cs & _ & _ & -> & ->)]]; simpl.
  - done.
  - by rewrite List.filter_app, no_getUserMedia_in_tick, app_nil_r.
  - rewrite List.filter_app. destruct o; simpl; by rewrite app_nil_r.
Qed.

(** X10: the page asks for the camera at most once in its life: once,
    with the resolution hint that [isMobile] decides, when the model has
    loaded and [getUserMedia] exists, and never otherwise; no tick, click
    or settlement asks again. *)
Theorem camera_asked_once (h : Host) (s : State) :
  reachable h s →
  List.filter is_getUserMedia (log s)
  = match knn_load h, mediaDevices (navigator h) ≫= getUserMedia with
    | Some (Resolved _), Some _ =>
        [GetUserMedia (if isMobile (navigator h) then None else Some 300)
                      (if isMobile (navigator h) then None else Some 250)]
    | _, _ => []
    end.
Proof.
  intros Hreach. induction Hreach as [| s e s' Hreach IH He].
  - destruct (loaded_or_not h) as [Hload | Hload].
    + rewrite Hload.
      destruct (mediaDevices (navigator h) ≫= getUserMedia) as [stream|] eqn:Hgum.
      * destruct (bindPage_supported h stream Hload Hgum) as (t & Ht & E).
        simpl in E. rewrite E.
        destruct stream as [[[] | msg] |]; try done.
        destruct (loadedmetadata h); [| done].
        erewrite animate_running by reflexivity.
        unfold after_tick. cbn [snd log].
        by rewrite List.filter_app, no_getUserMedia_in_tick.
      * by rewrite (bindPage_unsupported h Hload Hgum).
    + destruct (bindPage_not_loaded h Hload) as [-> _].
      by destruct (knn_load h) as [[[] | msg] |].
  - by rewrite (getUserMedia_calls_kept e s s' (Inv_reachable _ _ _ h s Hreach) He).
Qed.

Lemma tick_balance s m :
  captured (tick_calls s m) = 1%nat
  ∧ (released (tick_calls s m)
     + (if gt0 (Math_max (classExampleCount (trained s m))) then 1 else 0) = 1)%nat.
Proof.
  unfold captured, released, tick_calls.
  by destruct (training s =? -1); destruct (gt0 _).
Qed.

Lemma captured_app l k : captured (l ++ k) = (captured l + captured k)%nat.
Proof. unfold captured. by rewrite List.filter_app, length_app. Qed.

Lemma released_app l k : released (l ++ k) = (released l + released k)%nat.
Proof. unfold released. by rewrite List.filter_app, length_app. Qed.

Lemma balance_start h :
  captured (log (snd (bindPage h initial)))
  = (released (log (snd (bindPage h initial)))
     + length (inflight (snd (bindPage h initial))))%nat.
Proof.
  destruct (fst (bindPage h initial)) as [[] | msg |] eqn:Hn.
  - destruct (bindPage_normal h Hn) as (_ & _ & _ & t & _ & ->).
    unfold after_tick. cbn [snd log inflight].
    rewrite captured_app, released_app.
    match goal with |- context [tick_calls ?s ?m] =>
      destruct (tick_balance s m) as [-> Hb]; revert Hb end.
    destruct (gt0 _); simpl; unfold captured, released; simpl; lia.
  - destruct (bindPage_abnormal h) as (_ & -> & _ & [-> | ->]);
      [by rewrite Hn | done | done].
  - destruct (bindPage_abnormal h) as (_ & -> & _ & [-> | ->]);
      [by rewrite Hn | done | done].
Qed.

Lemma balance_step e s s' :
  Inv s → step e s = Some s' → no_rejection e = true →
  captured (log s) = (released (log s) + length (inflight s))%nat →
  captured (log s') = (released (log s') + length (inflight s'))%nat.
Proof.
  intros HI He Hno Hb.
  destruct (step_cases e s s' HI He)
    as [(m & _ & ->) | [(n & m & v & _ & _ & _ & _ & ->)
                       | (k & o & p & l' & cs & -> & Hk & -> & ->)]].
  - done.
  - unfold after_tick. cbn [log inflight set_frames].
    rewrite captured_app, released_app.
    destruct (tick_balance (set_frames n s) m) as [-> Hb']. revert Hb'.
    destruct (gt0 _); [rewrite length_app |]; simpl; lia.
  - destruct o as [res | msg]; [| discriminate]. cbn [log inflight set_log set_infoTexts set_inflight].
    rewrite captured_app, released_app.
    rewrite length_delete by eauto.
    assert ((0 < length (inflight s))%nat)
      by (apply Nat.le_lt_trans with k; [lia | apply lookup_lt_is_Some; eauto]).
    unfold captured at 2, released at 2. simpl. lia.
Qed.

(** X11: as long as no prediction is rejected, no frame is lost: after any
    run of clicks, ticks and resolved predictions, the frames captured so
    far are as many as the frames released plus the predictions still in
    flight. *)
Theorem no_leak_without_rejection (h : Host) (es : list Event) (s : State) :
  run es (snd (bindPage h initial)) = Some s →
  forallb no_rejection es = true →
  captured (log s) = (released (log s) + length (inflight s))%nat.
Proof.
  intros Hrun Hall.
  assert (Hgen : ∀ es s0 s, reachable h s0 →
            captured (log s0) = (released (log s0) + length (inflight s0))%nat →
            run es s0 = Some s → forallb no_rejection es = true →
            captured (log s) = (released (log s) + length (inflight s))%nat).
  { clear. induction es as [|e es IH]; intros s0 s Hreach Hb Hrun Hall;
      simpl in Hrun, Hall.
    - by injection Hrun as <-.
    - apply andb_true_iff in Hall as [He Hall].
      destruct (step e s0) as [s1|] eqn:Hs; simpl in Hrun; [| discriminate].
      apply (IH s1 s); [by eapply reach_step | | done | done].
      by apply (balance_step e s0 s1 (Inv_reachable _ _ _ h s0 Hreach) Hs He). }
  apply (Hgen es (snd (bindPage h initial)) s);
    [apply reach_bindPage | apply balance_start | done | done].
Qed.

(** X12: mouse events change nothing on the page but [training], and what
    they leave in it is decided by the last of them alone: the class of the
    button pressed last or, if the last event is a release over any button,
    none. *)
Theorem last_click_decides (h : Host) (ms : list Mouse) (s s' : State) :
  reachable h s →
  run (Click <$> ms) s = Some s' →
  s' = set_training (last_armed ms (training s)) s.
Proof.
  intros Hreach. revert s Hreach.
  induction ms as [|m ms IH]; intros s Hreach Hrun; simpl in Hrun.
  - injection Hrun as <-. by destruct s.
  - destruct (dispatch m s) as [s1|] eqn:Hs; simpl in Hrun; [| discriminate].
    destruct (dispatch_spec m s s1
                (inv_buttons s (Inv_reachable _ _ _ h s Hreach)) Hs) as [-> _].
    rewrite (IH (set_training (armed_by m) s)); [done | | done].
    by apply (reach_step _ _ _ h s (Click m)).
Qed.

End Life.

(** ** Further facts: the display update on any input *)

Section Display.
Context {number : Type}.
Variable NaN : number.
Variable times100 : number → number.
Variable toString : number → string.

Local Abbreviation show := (show NaN times100 toString).
Local Abbreviation settle := (settle NaN times100 toString).
Local Abbreviation shown := (shown NaN times100 toString).

Lemma shown_idem ec res i t : shown ec res i (shown ec res i t) = shown ec res i t.
Proof.
  unfold Camera.shown. simpl.
  destruct (ec !! i) as [c|]; [destruct (0 <? c) |]; reflexivity.
Qed.

(** X13: the display update is idempotent and touches nothing but the
    status spans: run a second time with the same counts and prediction it
    leaves the page as the first run left it, and the first run changes
    neither [training], the classifier, the log nor the number of spans. *)
Theorem display_update_idempotent ec (res : Prediction number) (s : State) :
  length (infoTexts s) = NUM_CLASSES →
  show ec res (snd (show ec res s)) = show ec res s
  ∧ snd (show ec res s) = set_infoTexts (infoTexts (snd (show ec res s))) s
  ∧ length (infoTexts (snd (show ec res s))) = length (infoTexts s).
Proof.
  intros Hlen.
  destruct (show_ok NaN times100 toString ec res s Hlen) as (l1 & E1 & Hl1 & Hp1).
  rewrite E1. simpl snd. simpl infoTexts.
  split; [| split; [done | lia]].
  destruct (show_ok NaN times100 toString ec res (set_infoTexts l1 s) Hl1)
    as (l2 & E2 & Hl2 & Hp2).
  rewrite E2. simpl in Hp2. f_equal.
  assert (l2 = l1) as ->; [| done].
  apply list_eq. intros j.
  destruct (infoTexts s !! j) as [t|] eqn:Hj.
  - rewrite (Hp2 j _ (Hp1 j t Hj)), (Hp1 j t Hj). by rewrite shown_idem.
  - apply lookup_ge_None in Hj.
    rewrite !(proj2 (lookup_ge_None _ _)); [done | lia | lia].
Qed.

(** X15: when the class index of the prediction is not a class of the page
    (it is negative or at least [NUM_CLASSES]), the display update makes
    every span normal: no class is shown as predicted. *)
Theorem no_bold_for_unknown_class ec (res : Prediction number) (s : State) :
  length (infoTexts s) = NUM_CLASSES →
  classIndex res < 0 ∨ Z.of_nat NUM_CLASSES ≤ classIndex res →
  ∀ i t, infoTexts (snd (show ec res s)) !! i = Some t → fontWeight t = "normal".
Proof.
  intros Hlen Hk i t' Hi.
  destruct (show_ok NaN times100 toString ec res s Hlen) as (l' & E & Hl' & Hpt).
  rewrite E in Hi. simpl in Hi.
  assert (Hlt : (i < NUM_CLASSES)%nat) by (rewrite <- Hl'; apply lookup_lt_is_Some; eauto).
  destruct (lookup_lt_is_Some_2 (infoTexts s) i) as [t Ht]; [lia |].
  rewrite (Hpt i t Ht) in Hi. injection Hi as <-. simpl.
  destruct (Z.eqb_spec (classIndex res) (Z.of_nat i)); [lia | done].
Qed.

(** X16: the status text of class [i] is written only for a positive
    count.  It is left as it was when the count array has no entry at [i]
    and when the entry is 0 or negative; and when the count is positive but
    the prediction has no confidence at [i], the text is written with the
    rendering of [NaN] as its percentage. *)
Theorem status_text_edge_cases ec (res : Prediction number) (s : State)
    (i : nat) (t : InfoText) :
  length (infoTexts s) = NUM_CLASSES →
  infoTexts s !! i = Some t →
  (ec !! i = None →
   innerText <$> infoTexts (snd (show ec res s)) !! i = Some (innerText t))
  ∧ (∀ c, ec !! i = Some c → c ≤ 0 →
     innerText <$> infoTexts (snd (show ec res s)) !! i = Some (innerText t))
  ∧ (∀ c, ec !! i = Some c → 0 < c → confidences res !! i = None →
     innerText <$> infoTexts (snd (show ec res s)) !! i
     = Some (" " +:+ pretty c +:+ " examples - " +:+ toString NaN +:+ "%")).
Proof.
  intros Hlen Ht.
  destruct (show_ok NaN times100 toString ec res s Hlen) as (l' & -> & _ & Hpt).
  simpl. rewrite (Hpt i t Ht). simpl. unfold conf, status.
  split; [by intros -> |]. split.
  - intros c -> Hc. by rewrite (proj2 (Z.ltb_ge 0 c)).
  - intros c -> Hc ->. by rewrite (proj2 (Z.ltb_lt 0 c)).
Qed.

End Display.

(** ** The further facts on concrete hosts and pages *)

(** Start-up on [denied], a mobile browser. *)
Lemma camera_denied_fallback_witness :
  knn_load denied = Some (Resolved ())
  ∧ fst (bindPage denied initial) = Throw "NotAllowedError"
  ∧ display (info (snd (bindPage denied initial))) = "block"
  ∧ log (snd (bindPage denied initial)) = [GetUserMedia None None].
Proof.
  split; [reflexivity |].
  destruct (camera_denied_fallback denied
              {| getUserMedia := Some (Some (Rejected "NotAllowedError")) |}
              "NotAllowedError" eq_refl eq_refl eq_refl)
    as (Hthrow & Hinfo & _ & Hlog & _).
  split; [exact Hthrow |]. split; [by rewrite Hinfo | exact Hlog].
Defined.

(** Start-up on [stalled]. *)
Lemma camera_pending_witness :
  knn_load stalled = Some (Resolved ())
  ∧ fst (bindPage stalled initial) = Suspended
  ∧ display (info (snd (bindPage stalled initial))) = "none"
  ∧ video (snd (bindPage stalled initial)) = None.
Proof.
  split; [reflexivity |].
  destruct (camera_pending stalled {| getUserMedia := Some None |}
              eq_refl eq_refl (or_introl eq_refl))
    as (Hsusp & Hinfo & _ & Hvideo & _).
  split; [exact Hsusp |]. split; [exact Hinfo | exact Hvideo].
Defined.

(** The page of [desktop] after a second tick and a resolved prediction. *)
Lemma loop_stays_alive_witness :
  fst (bindPage desktop initial) = Normal ()
  ∧ reachable 0 (Z.mul 100) pretty desktop second_tick
  ∧ frames second_tick = 1%nat.
Proof.
  assert (Hreach : reachable 0 (Z.mul 100) pretty desktop second_tick).
  { apply (run_reachable 0 (Z.mul 100) pretty desktop
             [AnimationFrame; Settle 0%nat (Resolved class0)] first_tick).
    - apply reach_bindPage.
    - vm_compute. reflexivity. }
  split; [reflexivity |]. split; [exact Hreach |].
  apply (loop_stays_alive 0 (Z.mul 100) pretty desktop second_tick eq_refl Hreach).
Defined.

(** The page of [no_camera] after start-up. *)
Lemma no_tick_without_camera_witness :
  fst (bindPage no_camera initial) ≠ Normal ()
  ∧ frames (snd (bindPage no_camera initial)) = 0%nat
  ∧ inflight (snd (bindPage no_camera initial)) = [].
Proof.
  assert (Hn : fst (bindPage no_camera initial) ≠ Normal ()) by discriminate.
  split; [exact Hn |].
  destruct (no_tick_without_camera 0 (Z.mul 100) pretty no_camera
              (snd (bindPage no_camera initial)) Hn
              (reach_bindPage 0 (Z.mul 100) pretty no_camera))
    as (Hf & Hi & _).
  split; [exact Hf | exact Hi].
Defined.

(** The page of [offline] after start-up. *)
Lemma model_not_loaded_witness :
  knn_load offline ≠ Some (Resolved ())
  ∧ snd (bindPage offline initial) = initial
  ∧ fst (bindPage offline initial) = Throw "Failed to fetch".
Proof.
  assert (Hn : knn_load offline ≠ Some (Resolved ())) by discriminate.
  split; [exact Hn |].
  destruct (model_not_loaded 0 (Z.mul 100) pretty offline
              (snd (bindPage offline initial)) Hn
              (reach_bindPage 0 (Z.mul 100) pretty offline))
    as (Hs & Hthrow & _).
  split; [exact Hs | exact Hthrow].
Defined.

(** The page of [desktop] after start-up asked for 300 by 250 once. *)
Lemma camera_asked_once_witness :
  reachable 0 (Z.mul 100) pretty desktop first_tick
  ∧ List.filter is_getUserMedia (log first_tick)
    = [GetUserMedia (Some 300) (Some 250)].
Proof.
  split; [apply reach_bindPage |].
  apply (camera_asked_once 0 (Z.mul 100) pretty desktop first_tick).
  apply reach_bindPage.
Defined.

(** Two frames captured on [desktop], one released, one prediction
    pending. *)
Lemma no_leak_without_rejection_witness :
  run 0 (Z.mul 100) pretty [AnimationFrame; Settle 0%nat (Resolved class0)]
    (snd (bindPage desktop initial)) = Some second_tick
  ∧ captured (log second_tick)
    = (released (log second_tick) + length (inflight second_tick))%nat.
Proof.
  assert (Hrun : run 0 (Z.mul 100) pretty
                   [AnimationFrame; Settle 0%nat (Resolved class0)]
                   (snd (bindPage desktop initial)) = Some second_tick)
    by (vm_compute; reflexivity).
  split; [exact Hrun |].
  exact (no_leak_without_rejection 0 (Z.mul 100) pretty desktop _ second_tick
           Hrun eq_refl).
Defined.

(** Releasing button 0 and pressing button 2 on [desktop] arms class 2. *)
Lemma last_click_decides_witness :
  reachable 0 (Z.mul 100) pretty desktop first_tick
  ∧ run 0 (Z.mul 100) pretty (Click <$> [MouseUp 0%nat; MouseDown 2%nat]) first_tick
    = Some rearmed
  ∧ rearmed = set_training 2 first_tick.
Proof.
  assert (Hrun : run 0 (Z.mul 100) pretty
                   (Click <$> [MouseUp 0%nat; MouseDown 2%nat]) first_tick
                 = Some rearmed)
    by (vm_compute; reflexivity).
  split; [apply reach_bindPage |]. split; [exact Hrun |].
  exact (last_click_decides 0 (Z.mul 100) pretty desktop _ first_tick rearmed
           (reach_bindPage 0 (Z.mul 100) pretty desktop) Hrun).
Defined.

(** The display update run twice on the page [setupGui] built. *)
Lemma display_update_idempotent_witness :
  length (infoTexts booted) = NUM_CLASSES
  ∧ show 0 (Z.mul 100) pretty [1; 0; 0] class0
      (snd (show 0 (Z.mul 100) pretty [1; 0; 0] class0 booted))
    = show 0 (Z.mul 100) pretty [1; 0; 0] class0 booted.
Proof.
  split; [reflexivity |].
  destruct (display_update_idempotent 0 (Z.mul 100) pretty [1; 0; 0] class0 booted
              eq_refl) as [H _].
  exact H.
Defined.

(** A prediction of class 3 on the page [setupGui] built. *)
Lemma no_bold_for_unknown_class_witness :
  length (infoTexts booted) = NUM_CLASSES
  ∧ (classIndex class3 < 0 ∨ Z.of_nat NUM_CLASSES ≤ classIndex class3)
  ∧ (fontWeight <$> infoTexts (snd (show 0 (Z.mul 100) pretty [1; 0; 0] class3 booted)) !! 0%nat
     = Some "normal").
Proof.
  assert (Hk : classIndex class3 < 0 ∨ Z.of_nat NUM_CLASSES ≤ classIndex class3)
    by (right; discriminate).
  split; [reflexivity |]. split; [exact Hk |].
  destruct (infoTexts (snd (show 0 (Z.mul 100) pretty [1; 0; 0] class3 booted)) !! 0%nat)
    as [t|] eqn:Ht; [| vm_compute in Ht; discriminate].
  simpl. f_equal.
  exact (no_bold_for_unknown_class 0 (Z.mul 100) pretty [1; 0; 0] class3 booted
           eq_refl Hk 0%nat t Ht).
Defined.

(** A count array with the single entry 1, on the page [setupGui] built:
    class 1 has no entry. *)
Lemma status_text_edge_cases_witness :
  length (infoTexts booted) = NUM_CLASSES
  ∧ infoTexts booted !! 1%nat
    = Some {| innerText := " No examples added"; fontWeight := "" |}
  ∧ innerText <$> infoTexts (snd (show 0 (Z.mul 100) pretty [1] class0 booted)) !! 1%nat
    = Some " No examples added".
Proof.
  split; [reflexivity |]. split; [reflexivity |].
  destruct (status_text_edge_cases 0 (Z.mul 100) pretty [1] class0 booted 1%nat
              {| innerText := " No examples added"; fontWeight := "" |}
              eq_refl eq_refl) as [H _].
  exact (H eq_refl).
Defined.

(** ** The chain of a prediction on the running page *)

Section Chain.
Context {number : Type}.
Variable NaN : number.
Variable times100 : number → number.
Variable toString : number → string.

Local Abbreviation show := (show NaN times100 toString).
Local Abbreviation settle := (settle NaN times100 toString).
Local Abbreviation step := (step NaN times100 toString).
Local Abbreviation run := (run NaN times100 toString).
Local Abbreviation reachable := (reachable NaN times100 toString).
Local Abbreviation shown := (shown NaN times100 toString).

(** The settlement of a resolved prediction on a reachable page: the
    display update completes on the page without the chain, and the release
    is made on the page it leaves. *)
Lemma step_resolved h s k p res :
  reachable h s → inflight s !! k = Some p →
  ∃ l',
    show (p_exampleCount p) res (set_inflight (delete k (inflight s)) s)
    = (Normal (), set_infoTexts l' (set_inflight (delete k (inflight s)) s))
    ∧ step (Settle k (Resolved res)) s
      = Some (set_log (log s ++ [Dispose (p_image p)])
                (set_infoTexts l' (set_inflight (delete k (inflight s)) s)))
    ∧ length l' = NUM_CLASSES
    ∧ length (infoTexts s) = NUM_CLASSES
    ∧ ∀ j t, infoTexts s !! j = Some t →
        l' !! j = Some (shown (p_exampleCount p) res j t).
Proof.
  intros Hreach Hk.
  pose proof (Inv_reachable _ _ _ h s Hreach) as HI.
  assert (Hrun : running s).
  { apply (inv_running s HI). right. intros E. by rewrite E in Hk. }
  assert (Hlen : length (infoTexts s) = NUM_CLASSES) by (apply (inv_texts s HI), Hrun).
  destruct (show_ok NaN times100 toString (p_exampleCount p) res
              (set_inflight (delete k (inflight s)) s) Hlen)
    as (l' & E & Hl' & Hpt).
  exists l'. split; [exact E |]. split; [| done].
  rewrite (step_settle NaN times100 toString s k p _ Hk).
  unfold Camera.settle, bind. by rewrite E.
Qed.


(** Once the model has loaded the page has the three buttons of
    [setupGui], and keeps them. *)
Lemma reachable_buttons h s :
  knn_load h = Some (Resolved ()) → reachable h s → buttons s = buttons booted.
Proof.
  intros Hload. induction 1 as [| s e s' Hreach IH He].
  - destruct (mediaDevices (navigator h) ≫= getUserMedia) as [stream|] eqn:Hgum.
    + destruct (bindPage_supported h stream Hload Hgum) as (t & Ht & E).
      simpl in E. rewrite E.
      destruct stream as [[[] | msg] |]; try done.
      destruct (loadedmetadata h); [| done].
      by destruct (animate_keeps
                     (set_video (Some the_video)
                        (set_training t (set_log [asked h] booted))))
        as (_ & _ & ->).
    + by rewrite (bindPage_unsupported h Hload Hgum).
  - rewrite <- IH.
    destruct (step_cases NaN times100 toString e s s'
                (Inv_reachable _ _ _ h s Hreach) He)
      as [(m & _ & ->) | [(n & m & v & _ & _ & _ & _ & ->)
                         | (k & o & p & l' & cs & _ & _ & -> & _)]]; done.
Qed.

Lemma releases_grow h es image : ∀ s s',
  reachable h s → run es s = Some s' →
  (releases image (log s) ≤ releases image (log s'))%nat.
Proof.
  induction es as [|e es IH]; intros s s' Hreach Hrun; simpl in Hrun.
  - by injection Hrun as <-.
  - destruct (step e s) as [s1|] eqn:He; simpl in Hrun; [| discriminate].
    etrans; [| apply (IH s1 s'); [by eapply reach_step | done]].
    destruct (step_cases NaN times100 toString e s s1
                (Inv_reachable _ _ _ h s Hreach) He)
      as [(m & _ & ->) | [(n & m & v & _ & _ & _ & _ & ->)
                         | (k & o & p & l' & cs & _ & _ & -> & _)]];
      cbn [log after_tick set_training set_frames set_log set_infoTexts set_inflight];
      rewrite ?releases_app; lia.
Qed.

(** A frame that was captured, is not released and has no chain waiting
    for it is never released. *)
Lemma lost_stays_lost h es image : ∀ s s',
  reachable h s → (image < nextImage s)%nat →
  releases image (log s) = 0%nat → awaiting image (inflight s) = 0%nat →
  run es s = Some s' →
  releases image (log s') = 0%nat.
Proof.
  induction es as [|e es IH]; intros s s' Hreach Hlt Hr Ha Hrun; simpl in Hrun.
  - by injection Hrun as <-.
  - destruct (step e s) as [s1|] eqn:He; simpl in Hrun; [| discriminate].
    assert (Hreach1 : reachable h s1) by (by eapply reach_step).
    destruct (step_cases NaN times100 toString e s s1
                (Inv_reachable _ _ _ h s Hreach) He)
      as [(m & _ & E) | [(n & m & v & _ & _ & _ & _ & E)
                        | (k & o & p & l' & cs & _ & Hk & E & Hcs)]];
      apply (IH s1 s' Hreach1); try done; subst s1;
      cbn [log inflight nextImage after_tick set_training set_frames set_log
           set_infoTexts set_inflight]; try done.
    + lia.
    + rewrite releases_app, releases_tick, Hr.
      cbn [nextImage set_frames].
      destruct (gt0 _); [done |]. by rewrite bool_decide_eq_false_2 by lia.
    + destruct (gt0 _); [| done].
      rewrite awaiting_app, Ha. unfold awaiting. simpl.
      by rewrite bool_decide_eq_false_2 by lia.
    + rewrite (awaiting_delete image _ k p Hk) in Ha.
      rewrite releases_app, Hr. subst cs.
      destruct o; [| done]. unfold releases. simpl.
      destruct (bool_decide_reflect (p_image p = image)); [lia | done].
    + rewrite (awaiting_delete image _ k p Hk) in Ha. lia.
Qed.

(** C2 (as amended): on the path without a prediction the tick releases
    the frame it captured once, at once; on the path with a prediction the
    tick does not release it and leaves one chain waiting for it.  When the
    prediction resolves, on any page the loop reaches, the display update
    runs to completion, rewriting every span and nothing else, and the
    release is then made, as the one call of the chain, on the page the
    update left; on any page at all the release is made only if the display
    update completed.  When the prediction is rejected the chain is dropped
    and nothing else on the page changes: no span is written, no call is
    made, and the frame is not released in any later state either.  A frame
    that has been released stays released exactly once, and no frame is ever
    released twice. *)
Theorem frame_released_once :
  (∀ s m v, model s = Some m → video s = Some v →
     if gt0 (Math_max (classExampleCount (trained s m)))
     then releases (nextImage s) (calls_since s (snd (animate s))) = 0%nat
          ∧ inflight (snd (animate s))
            = inflight s ++ [{| p_image := nextImage s;
                                p_exampleCount := classExampleCount (trained s m) |}]
     else releases (nextImage s) (calls_since s (snd (animate s))) = 1%nat
          ∧ inflight (snd (animate s)) = inflight s)
  ∧ (∀ h s k p res, reachable h s → inflight s !! k = Some p →
       ∃ s1,
         show (p_exampleCount p) res (set_inflight (delete k (inflight s)) s)
         = (Normal (), s1)
         ∧ step (Settle k (Resolved res)) s
           = Some (set_log (log s1 ++ [Dispose (p_image p)]) s1)
         ∧ log s1 = log s
         ∧ inflight s1 = delete k (inflight s)
         ∧ length (infoTexts s1) = NUM_CLASSES
         ∧ ∀ j t, infoTexts s !! j = Some t →
             infoTexts s1 !! j
             = Some {| innerText :=
                         match p_exampleCount p !! j with
                         | Some c =>
                             if 0 <? c
                             then " " +:+ pretty c +:+ " examples - "
                                      +:+ toString (conf NaN times100 res j) +:+ "%"
                             else innerText t
                         | None => innerText t
                         end;
                       fontWeight :=
                         if classIndex res =? Z.of_nat j then "bold" else "normal" |})
  ∧ (∀ p res s,
       settle p (Resolved res) s
       = match show (p_exampleCount p) res s with
         | (Normal _, s1) =>
             (Normal (), set_log (log s1 ++ [Dispose (p_image p)]) s1)
         | thrown => thrown
         end)
  ∧ (∀ s k p msg, inflight s !! k = Some p →
       step (Settle k (Rejected msg)) s
       = Some (set_inflight (delete k (inflight s)) s))
  ∧ (∀ h s k p msg s' es s'', reachable h s → inflight s !! k = Some p →
       step (Settle k (Rejected msg)) s = Some s' →
       run es s' = Some s'' →
       releases (p_image p) (log s'') = 0%nat)
  ∧ (∀ h s image es s', reachable h s → releases image (log s) = 1%nat →
       run es s = Some s' →
       releases image (log s') = 1%nat)
  ∧ (∀ h s image, reachable h s →
       (releases image (log s) + awaiting image (inflight s) ≤ 1)%nat).
Proof.
  assert (Hrej : ∀ s k p msg, inflight s !! k = Some p →
            step (Settle k (Rejected msg)) s
            = Some (set_inflight (delete k (inflight s)) s)).
  { intros s k p msg Hk. by rewrite (step_settle NaN times100 toString s k p _ Hk). }
  split; [| split; [| split; [| split; [| split; [| split]]]]].
  - intros s m v Hm Hv. rewrite (animate_running s m v Hm Hv). simpl snd.
    rewrite calls_since_tick, releases_tick. simpl inflight.
    destruct (gt0 _); [done |].
    by rewrite bool_decide_eq_true_2.
  - intros h s k p res Hreach Hk.
    destruct (step_resolved h s k p res Hreach Hk) as (l' & E & Hs & Hl' & _ & Hpt).
    eexists. split; [exact E |]. split; [exact Hs |].
    repeat (split; [done |]). intros j t Hj.
    cbn [infoTexts set_infoTexts]. by rewrite (Hpt j t Hj).
  - intros p res s. unfold Camera.settle, bind.
    by destruct (show (p_exampleCount p) res s) as [[[] | msg |] s1].
  - exact Hrej.
  - intros h s k p msg s' es s'' Hreach Hk Hstep Hrun.
    pose proof (Inv_reachable _ _ _ h s Hreach) as HI.
    pose proof (inv_once s HI (p_image p)) as Honce.
    rewrite (awaiting_delete (p_image p) _ k p Hk) in Honce.
    rewrite bool_decide_eq_true_2 in Honce by done.
    assert (Hlt : (p_image p < nextImage s)%nat).
    { destruct (decide (p_image p < nextImage s)%nat) as [|Hge]; [done |].
      destruct (inv_fresh s HI (p_image p)) as [_ Ha]; [lia |].
      rewrite (awaiting_delete (p_image p) _ k p Hk) in Ha.
      rewrite bool_decide_eq_true_2 in Ha by done. lia. }
    apply (lost_stays_lost h es (p_image p) s' s''); [| | | | done].
    + by apply (reach_step _ _ _ h s (Settle k (Rejected msg))).
    + rewrite (Hrej s k p msg Hk) in Hstep. injection Hstep as <-. done.
    + rewrite (Hrej s k p msg Hk) in Hstep. injection Hstep as <-. simpl. lia.
    + rewrite (Hrej s k p msg Hk) in Hstep. injection Hstep as <-. simpl. lia.
  - intros h s image es s' Hreach H1 Hrun.
    pose proof (releases_grow h es image s s' Hreach Hrun) as Hle.
    pose proof (inv_once s' (Inv_reachable _ _ _ h s'
                               (run_reachable _ _ _ h es s s' Hreach Hrun)) image).
    lia.
  - intros h s image Hreach.
    apply (inv_once s (Inv_reachable _ _ _ h s Hreach)).
Qed.


(** C5: whenever a prediction resolves on a page the loop has reached, and
    its class index is a class of the page, the chain runs the display
    update: afterwards the page has its [NUM_CLASSES] spans, the span of the
    predicted class is bold, and the span of every other class is
    normal. *)
Theorem bold_exactly_predicted (h : Host) (s : State) (k : nat) (p : Pending)
    (res : Prediction number) :
  reachable h s → inflight s !! k = Some p →
  0 ≤ classIndex res < Z.of_nat NUM_CLASSES →
  ∃ s', step (Settle k (Resolved res)) s = Some s'
    ∧ length (infoTexts s') = NUM_CLASSES
    ∧ (∃ t, infoTexts s' !! Z.to_nat (classIndex res) = Some t
            ∧ fontWeight t = "bold")
    ∧ ∀ i t, infoTexts s' !! i = Some t →
        fontWeight t
        = if decide (i = Z.to_nat (classIndex res)) then "bold" else "normal".
Proof.
  intros Hreach Hk Hres.
  destruct (step_resolved h s k p res Hreach Hk) as (l' & E & Hs & Hl' & Hlen & _).
  eexists. split; [exact Hs |]. cbn [infoTexts set_log set_infoTexts].
  destruct (show_marks_predicted NaN times100 toString (p_exampleCount p) res
              (set_inflight (delete k (inflight s)) s) Hlen Hres)
    as (_ & Hl & Hbold & Hrest).
  rewrite E in Hl, Hbold, Hrest. by cbn [snd infoTexts set_infoTexts] in *.
Qed.

(** C8: [training] starts as -1.  On every page the loop reaches, once the
    model has loaded, each of the [NUM_CLASSES] controls is there: a press
    of control [i] is dispatched and leaves the page as it was but for
    [training], which is [i]; a release over it likewise leaves -1; and
    there is no further control to press.  Whatever event happens,
    [training] is [i] after a press of control [i], -1 after a release, and
    unchanged after a tick of the render loop or the settlement of a
    prediction; start-up does not write it either, so that without clicks it
    ends with -1. *)
Theorem training_only_by_mouse :
  training initial = -1
  ∧ (∀ h s i, knn_load h = Some (Resolved ()) → reachable h s →
       (i < NUM_CLASSES)%nat →
       step (Click (MouseDown i)) s = Some (set_training (Z.of_nat i) s)
       ∧ step (Click (MouseUp i)) s = Some (set_training (-1) s))
  ∧ (∀ h s i, reachable h s → (NUM_CLASSES ≤ i)%nat →
       step (Click (MouseDown i)) s = None
       ∧ step (Click (MouseUp i)) s = None)
  ∧ (∀ h s e s', reachable h s → step e s = Some s' →
       training s'
       = match e with
         | Click (MouseDown i) => Z.of_nat i
         | Click (MouseUp _) => -1
         | AnimationFrame | Settle _ _ => training s
         end)
  ∧ (∀ s, training (snd (animate s)) = training s)
  ∧ (∀ p o s, training (snd (settle p o s)) = training s)
  ∧ (∀ h, during_setupCamera h = [] →
       training (snd (bindPage h initial)) = -1).
Proof.
  destruct (training_writes NaN times100 toString) as (H0 & Hstep & Hrest).
  split; [exact H0 |]. split; [| split; [| split; [exact Hstep | exact Hrest]]].
  - intros h s i Hload Hreach Hi.
    pose proof (reachable_buttons h s Hload Hreach) as Hb.
    unfold Camera.step, dispatch. rewrite Hb.
    destruct i as [|[|[|i]]]; try (unfold NUM_CLASSES in Hi; lia);
      split; reflexivity.
  - intros h s i Hreach Hi.
    pose proof (inv_buttons s (Inv_reachable _ _ _ h s Hreach)) as Hb.
    unfold Camera.step, dispatch.
    destruct (buttons s !! i) as [b|] eqn:E; [| done].
    destruct (Hb i b E) as [Hlt _]. lia.
Qed.

End Chain.

(** ** The chain on the page of [desktop] *)



(** The prediction of the first tick of [desktop] resolves to class 0:
    class 0 is bold, classes 1 and 2 normal. *)
Lemma bold_exactly_predicted_witness :
  reachable 0 (Z.mul 100) pretty desktop first_tick
  ∧ inflight first_tick !! 0%nat = Some {| p_image := 0; p_exampleCount := [1; 0; 0] |}
  ∧ 0 ≤ classIndex class0 < Z.of_nat NUM_CLASSES
  ∧ ∃ s', step 0 (Z.mul 100) pretty (Settle 0%nat (Resolved class0)) first_tick = Some s'
      ∧ length (infoTexts s') = NUM_CLASSES
      ∧ (∃ t, infoTexts s' !! 0%nat = Some t ∧ fontWeight t = "bold")
      ∧ ∀ i t, infoTexts s' !! i = Some t →
          fontWeight t = if decide (i = 0%nat) then "bold" else "normal".
Proof.
  assert (Hk : inflight first_tick !! 0%nat
               = Some {| p_image := 0; p_exampleCount := [1; 0; 0] |})
    by (vm_compute; reflexivity).
  assert (Hres : 0 ≤ classIndex class0 < Z.of_nat NUM_CLASSES)
    by (split; [discriminate | reflexivity]).
  split; [apply reach_bindPage |]. split; [exact Hk |]. split; [exact Hres |].
  exact (bold_exactly_predicted 0 (Z.mul 100) pretty desktop first_tick 0%nat
           _ class0 (reach_bindPage 0 (Z.mul 100) pretty desktop) Hk Hres).
Defined.

(** On [desktop], where button 0 is held, a press of button 2 arms
    class 2. *)
Lemma training_only_by_mouse_witness :
  knn_load desktop = Some (Resolved ())
  ∧ training first_tick = 0
  ∧ step 0 (Z.mul 100) pretty (Click (MouseDown 2%nat)) first_tick = Some pressed2
  ∧ training pressed2 = 2
  ∧ step 0 (Z.mul 100) pretty (Click (MouseUp 2%nat)) pressed2
    = Some (set_training (-1) pressed2).
Proof.
  assert (H2 : (2 < NUM_CLASSES)%nat) by (unfold NUM_CLASSES; lia).
  destruct (training_only_by_mouse 0 (Z.mul 100) pretty) as (_ & Hpress & _).
  destruct (Hpress desktop first_tick 2%nat eq_refl
              (reach_bindPage 0 (Z.mul 100) pretty desktop) H2) as [Hdown _].
  assert (Hreach : reachable 0 (Z.mul 100) pretty desktop pressed2)
    by exact (reach_step 0 (Z.mul 100) pretty desktop first_tick _ pressed2
                (reach_bindPage 0 (Z.mul 100) pretty desktop) Hdown).
  destruct (Hpress desktop pressed2 2%nat eq_refl Hreach H2) as [_ Hup].
  split; [reflexivity |]. split; [vm_compute; reflexivity |].
  split; [exact Hdown |]. split; [reflexivity | exact Hup].
Defined.

End Camera.
